(** * gym-auv: the AUV path-following environment

    A shallow embedding of [gym_auv/envs/auv_env.py], [gym_auv/objects/auv.py]
    and [gym_auv/objects/path.py], and the properties of the environment's
    reset/step/observe/step_reward pipeline.

    Conventions.
    - Python and numpy floats are modelled as real numbers [R]; numpy's
      inf/nan results are outside the model.
    - A method of a Python object that mutates [self] is a computation in the
      monad [M], which threads the object and keeps the mutations made before
      an exception is raised.
    - Exceptions are values of [PyError]. *)

From Stdlib Require Import Reals Lra Lia ZArith Zfloor.
From stdpp Require Import base strings gmap list.

Open Scope R_scope.

(** ** Python values and exceptions *)

Inductive PyError : Type :=
| TypeError (msg : string)
| KeyError (key : string)
| AttributeError (obj attr : string)
| IndexError (index : Z)
| ZeroDivisionError.

Definition Result (A : Type) : Type := PyError + A.

(** A number stored in the configuration dictionary. *)
Inductive pynum : Type :=
| PyInt (z : Z)
| PyFloat (x : R).

Definition to_float (v : pynum) : R :=
  match v with
  | PyInt z => IZR z
  | PyFloat x => x
  end.

(** ** numpy arrays of fixed small shape *)

Definition vec2 : Type := R * R.
Definition vec3 : Type := R * R * R.
Definition mat3 : Type := vec3 * vec3 * vec3.
Definition mat32 : Type := vec2 * vec2 * vec2.

Definition vsub2 (a b : vec2) : vec2 := (a.1 - b.1, a.2 - b.2).
Definition vadd2 (a b : vec2) : vec2 := (a.1 + b.1, a.2 + b.2).
Definition vneg2 (a : vec2) : vec2 := (- a.1, - a.2).
Definition vscale2 (k : R) (a : vec2) : vec2 := (k * a.1, k * a.2).

Definition vsub3 (a b : vec3) : vec3 :=
  let '(a0, a1, a2) := a in let '(b0, b1, b2) := b in (a0 - b0, a1 - b1, a2 - b2).
Definition vadd3 (a b : vec3) : vec3 :=
  let '(a0, a1, a2) := a in let '(b0, b1, b2) := b in (a0 + b0, a1 + b1, a2 + b2).
Definition vscale3 (a : vec3) (k : R) : vec3 :=
  let '(a0, a1, a2) := a in (a0 * k, a1 * k, a2 * k).

Definition row_dot3 (r v : vec3) : R :=
  let '(r0, r1, r2) := r in let '(v0, v1, v2) := v in r0 * v0 + r1 * v1 + r2 * v2.
Definition row_dot2 (r v : vec2) : R := r.1 * v.1 + r.2 * v.2.

(** [A.dot(v)] for a 3x3 matrix and for a 3x2 matrix. *)
Definition dot3 (A : mat3) (v : vec3) : vec3 :=
  let '(r0, r1, r2) := A in (row_dot3 r0 v, row_dot3 r1 v, row_dot3 r2 v).
Definition dot32 (A : mat32) (v : vec2) : vec3 :=
  let '(r0, r1, r2) := A in (row_dot2 r0 v, row_dot2 r1 v, row_dot2 r2 v).

(** [np.linalg.norm] *)
Definition norm2 (v : vec2) : R := sqrt (v.1 * v.1 + v.2 * v.2).
Definition norm3 (v : vec3) : R :=
  let '(v0, v1, v2) := v in sqrt (v0 * v0 + v1 * v1 + v2 * v2).

(** [np.hstack([v, 0])] *)
Definition hstack0 (v : vec2) : vec3 := (v.1, v.2, 0).

(** [np.clip(x, lo, hi)] is [minimum(maximum(x, lo), hi)]. *)
Definition clip (x lo hi : R) : R := Rmin (Rmax x lo) hi.

#[global] Instance Rlt_decision (x y : R) : Decision (x < y) := Rlt_dec x y.
#[global] Instance Rle_decision (x y : R) : Decision (x <= y) := Rle_dec x y.
#[global] Instance Req_decision : EqDecision R := Req_dec_T.

(** [np.arctan2(y, x)] *)
Definition arctan2 (y x : R) : R :=
  if decide (0 < x) then atan (y / x)
  else if decide (x < 0) then
    (if decide (0 <= y) then atan (y / x) + PI else atan (y / x) - PI)
  else if decide (0 < y) then PI / 2
  else if decide (y < 0) then - (PI / 2)
  else 0.

(** [a / b] on Python numbers. *)
Definition py_div (a b : R) : Result R :=
  if decide (b = 0) then inl ZeroDivisionError else inr (a / b).

(** [np.floor] followed by [int(...)] *)
Definition floor (x : R) : Z := Zfloor x.

(** ** gym_auv.utils.geomutils *)

Module geom.

(** Modelled from the spec: [gym_auv/utils/geomutils.py] is not among the
    sources.  Spec 4.1: "wrapToPrincipal(angle) -> angle: maps any real angle
    to (-pi, pi]".  The value is the representative of [angle] modulo [2 pi]
    in that interval. *)
Definition princip (angle : R) : R :=
  angle + 2 * PI * IZR (floor ((PI - angle) / (2 * PI))).

(** Modelled from the spec: [gym_auv/utils/geomutils.py] is not among the
    sources.  Spec 4.1: "rotationZ(angle) -> 3x3 matrix ... producing a
    rotation of vectors by angle about the vertical axis".  The sources call
    [Rzyx] with [phi = theta = 0] only, the case the spec describes. *)
Definition Rzyx (phi theta psi : R) : mat3 :=
  ((cos psi, - sin psi, 0),
   (sin psi, cos psi, 0),
   (0, 0, 1)).

End geom.

(** ** gym_auv.utils.constants

    [gym_auv/utils/constants.py] is not among the sources: the vessel's
    constants are a parameter of the development. *)

Module const.
Record t : Type := {
  THRUST_MIN_AUV : R;
  THRUST_MAX_AUV : R;
  RUDDER_MAX_AUV : R;
  MAX_SPEED : R;
  M_inv : mat3;
  B : vec3 -> mat32;
  D : vec3 -> mat3;
  C : vec3 -> mat3;
  L : vec3 -> mat3 }.
End const.

(** ** gym_auv.objects.auv *)

(** The instance attributes set by [AUV2D.__init__].  [_state] is the numpy
    array [x, y, psi, u, v, r], kept as the pair of [eta = (x, y, psi)] and
    [nu = (u, v, r)]. *)
Record AUV2D : Type := mkAUV2D {
  _state : vec3 * vec3;
  prev_states : list (vec3 * vec3);
  width : R;
  t_step : R;
  input : vec2;
  prev_inputs : list vec2 }.

Definition AUV2D__init__ (t_step : R) (init_pos : vec3) (width : option R) : AUV2D :=
  let width := default 4 width in
  let _state := (init_pos, (0, 0, 0)) in
  {| _state := _state;
     prev_states := [_state];
     width := width;
     t_step := t_step;
     input := (0, 0);
     prev_inputs := [(0, 0)] |}.

Section Vessel.
Variable K : const.t.

Definition _surge (surge : R) : R :=
  let surge := clip surge 0 1 in
  surge * (const.THRUST_MAX_AUV K - const.THRUST_MIN_AUV K) + const.THRUST_MIN_AUV K.

Definition _steer (steer : R) : R :=
  let steer := clip steer (-1) 1 in
  steer * const.RUDDER_MAX_AUV K.

Definition _sim (self : AUV2D) : AUV2D :=
  let '(eta, nu) := _state self in
  let psi := eta.2 in
  let eta_dot := dot3 (geom.Rzyx 0 0 (geom.princip psi)) nu in
  let nu_dot :=
    dot3 (const.M_inv K)
      (vsub3 (vsub3 (vsub3 (dot32 (const.B K nu) (input self))
                           (dot3 (const.D K nu) nu))
                    (dot3 (const.C K nu) nu))
             (dot3 (const.L K nu) nu)) in
  let '(x, y, psi') := vadd3 eta (vscale3 eta_dot (t_step self)) in
  let nu' := vadd3 nu (vscale3 nu_dot (t_step self)) in
  {| _state := ((x, y, geom.princip psi'), nu');
     prev_states := prev_states self;
     width := width self;
     t_step := t_step self;
     input := input self;
     prev_inputs := prev_inputs self |}.

Definition AUV2D_step (self : AUV2D) (action : vec2) : AUV2D :=
  let self :=
    {| _state := _state self;
       prev_states := prev_states self;
       width := width self;
       t_step := t_step self;
       input := (_surge action.1, _steer action.2);
       prev_inputs := prev_inputs self |} in
  let self := _sim self in
  {| _state := _state self;
     prev_states := prev_states self ++ [_state self];
     width := width self;
     t_step := t_step self;
     input := input self;
     prev_inputs := prev_inputs self ++ [input self] |}.

(** The properties of [AUV2D]. *)
Definition position (self : AUV2D) : vec2 := ((_state self).1.1.1, (_state self).1.1.2).
Definition path_taken (self : AUV2D) : list vec2 :=
  (fun s : vec3 * vec3 => (s.1.1.1, s.1.1.2)) <$> prev_states self.
Definition heading (self : AUV2D) : R := (_state self).1.2.
Definition velocity (self : AUV2D) : vec2 := ((_state self).2.1.1, (_state self).2.1.2).
Definition speed (self : AUV2D) : R := norm2 (velocity self).
Definition yawrate (self : AUV2D) : R := (_state self).2.2.
Definition max_speed (self : AUV2D) : R := const.MAX_SPEED K.
Definition crab_angle (self : AUV2D) : R := arctan2 (velocity self).2 (velocity self).1.
Definition course (self : AUV2D) : R := heading self + crab_angle self.

Definition heading_change (self : AUV2D) : R :=
  let n := List.length (prev_states self) in
  if decide (2 <= n)%nat then
    geom.princip ((nth (n - 1) (prev_states self) (_state self)).1.2
                  - (nth (n - 2) (prev_states self) (_state self)).1.2)
  else heading self.

Definition rudder_change (self : AUV2D) : Result R :=
  let sum_rudder_change := 0 in
  let n_samples := Nat.min 10 (List.length (prev_inputs self)) in
  let sum_rudder_change :=
    foldl (fun sum_rudder_change i =>
             sum_rudder_change
             + (nth (List.length (prev_inputs self) - 1 - i) (prev_inputs self) (0, 0)).2)
          sum_rudder_change (seq 0 n_samples) in
  py_div sum_rudder_change (INR n_samples).

(** [self.<name>] for the attributes and properties of [AUV2D] whose value is
    a number.  The class defines [width]; it defines no attribute and no
    property called [radius]. *)
Definition AUV2D_getattr (self : AUV2D) (name : string) : Result R :=
  if decide (name = "width") then inr (width self)
  else if decide (name = "t_step") then inr (t_step self)
  else if decide (name = "heading") then inr (heading self)
  else if decide (name = "heading_change") then inr (heading_change self)
  else if decide (name = "rudder_change") then rudder_change self
  else if decide (name = "speed") then inr (speed self)
  else if decide (name = "yawrate") then inr (yawrate self)
  else if decide (name = "max_speed") then inr (max_speed self)
  else if decide (name = "crab_angle") then inr (crab_angle self)
  else if decide (name = "course") then inr (course self)
  else inl (AttributeError "AUV2D" name).

(** [vessel.step(a)] for each [a] of a sequence of actions, in order. *)
Definition AUV2D_steps (self : AUV2D) (actions : list vec2) : AUV2D :=
  foldl AUV2D_step self actions.

End Vessel.

(** ** External libraries

    [numpy.random], [gym.utils.seeding] and [scipy] belong to other projects:
    what the sources use of them is a parameter of the development. *)

Module lib.
Record t : Type := {
  (** [np.random.RandomState] and its method [rand()], which returns a draw
      and advances the generator. *)
  RandomState : Type;
  rand : RandomState -> R * RandomState;
  (** [gym.utils.seeding.np_random(seed)] *)
  np_random : Z -> RandomState * Z;
  (** [scipy.interpolate.pchip(x, y, axis=1)]: the interpolant and the
      interpolant returned by its [derivative()]. *)
  pchip : list R -> list vec2 -> (R -> vec2) * (R -> vec2);
  (** [scipy.optimize.fminbound(f, x1, x2, xtol=1e-6, maxfun=10000)] *)
  fminbound : (R -> R) -> R -> R -> R }.
End lib.

(** ** gym_auv.objects.path *)

Module Path.

(** The instance attributes set by [ParamCurve.__init__]. An array of
    waypoints of shape (2, n) is the list of its n columns. *)
Record ParamCurve : Type := {
  path_coords : R -> vec2;
  path_derivatives : R -> vec2;
  s_max : R;
  length : R;
  path_points : list vec2;
  line : list vec2 }.

(** [np.diff(coords, axis=1)] *)
Fixpoint diff (coords : list vec2) : list vec2 :=
  match coords with
  | a :: (b :: _) as rest => vsub2 b a :: diff rest
  | _ => []
  end.

(** [np.cumsum], with the sum so far as accumulator. *)
Fixpoint cumsum_from (acc : R) (l : list R) : list R :=
  match l with
  | [] => []
  | x :: l => (acc + x) :: cumsum_from (acc + x) l
  end.

Definition arc_len (coords : list vec2) : list R :=
  let diff := diff coords in
  let delta_arc := norm2 <$> diff in
  0 :: cumsum_from 0 delta_arc.

(** [np.linspace(start, stop, num)] *)
Definition linspace (start stop : R) (num : nat) : list R :=
  (fun i : nat => start + INR i * ((stop - start) / INR (num - 1))) <$> seq 0 num.

Section Curve.
Variable X : lib.t.

(** One pass of the loop of [ParamCurve.__init__]. *)
Definition fit (waypoints : list vec2)
  : list R * (R -> vec2) * (R -> vec2) * list vec2 :=
  let arclengths := arc_len waypoints in
  let '(path_coords, path_derivatives) := lib.pchip X arclengths waypoints in
  let waypoints :=
    path_coords <$> linspace (List.hd 0 arclengths) (List.last arclengths 0) 1000 in
  (arclengths, path_coords, path_derivatives, waypoints).

Definition ParamCurve__init__ (waypoints : list vec2) : ParamCurve :=
  let '(_, _, _, waypoints) := fit waypoints in
  let '(_, _, _, waypoints) := fit waypoints in
  let '(arclengths, path_coords, path_derivatives, _) := fit waypoints in
  let s_max := List.last arclengths 0 in
  let length := s_max in
  let S := linspace 0 length 1000 in
  let path_points := path_coords <$> S in
  {| path_coords := path_coords;
     path_derivatives := path_derivatives;
     s_max := s_max;
     length := length;
     path_points := path_points;
     line := path_points |}.

(** [self(arclength)] *)
Definition call (self : ParamCurve) (arclength : R) : vec2 :=
  path_coords self arclength.

Definition get_direction (self : ParamCurve) (arclength : R) : R :=
  let derivative := path_derivatives self arclength in
  arctan2 derivative.2 derivative.1.

Definition get_endpoint (self : ParamCurve) : vec2 := call self (s_max self).

Definition get_closest_arclength (self : ParamCurve) (position : vec2) : R :=
  lib.fminbound X (fun s => norm2 (vsub2 (call self s) position)) 0 (length self).

Definition get_closest_point (self : ParamCurve) (position : vec2) : vec2 * R :=
  let closest_arclength := get_closest_arclength self position in
  (call self closest_arclength, closest_arclength).

(** One iteration of the loop of [RandomCurveThroughOrigin.__init__], on the
    waypoints (one per row) and the generator. [half] is [nwaypoints // 2]. *)
Definition insert_waypoints (half : Z) (length : R) (start end_ : vec2)
    (st : list vec2 * lib.RandomState X) (waypoint : nat)
  : list vec2 * lib.RandomState X :=
  let '(waypoints, rng) := st in
  let '(r1, rng) := lib.rand X rng in
  let off1 := length / IZR (half + 1) * (r1 - 0.5) in
  let newpoint1 :=
    vadd2 (vscale2 (/ IZR (half + 1)) (vscale2 (IZR (half - Z.of_nat waypoint)) start))
          (off1, off1) in
  let '(r2, rng) := lib.rand X rng in
  let off2 := length / IZR (half + 1) * (r2 - 0.5) in
  let newpoint2 :=
    vadd2 (vscale2 (/ IZR (half + 1)) (vscale2 (IZR (half - Z.of_nat waypoint)) end_))
          (off2, off2) in
  (take (waypoint + 1) waypoints
     ++ [newpoint1; (0, 0); newpoint2]
     ++ drop (List.length waypoints - (waypoint + 1)) waypoints,
   rng).

(** [RandomCurveThroughOrigin(rng=..., nwaypoints=..., length=...)]: the call
    binds the arguments and runs [__init__].  [rng] is the value passed for
    the parameter [rng] ([None] is Python's None); [nwaypoints] and [length]
    are [None] when the call does not pass them.  [nwaypoints] has no default
    value, [length] has the default 400.  The generator is returned as the
    draws leave it. *)
Definition RandomCurveThroughOrigin
    (rng : option (lib.RandomState X)) (nwaypoints : option Z) (length : option R)
  : Result (ParamCurve * lib.RandomState X) :=
  match nwaypoints with
  | None =>
      inl (TypeError "__init__() missing 1 required positional argument: 'nwaypoints'")
  | Some nwaypoints =>
      let length := default 400 length in
      match rng with
      | None => inl (AttributeError "NoneType" "rand")
      | Some rng =>
          let '(r, rng) := lib.rand X rng in
          let angle_init := 2 * PI * (r - 0.5) in
          let start := (0.5 * length * cos angle_init, 0.5 * length * sin angle_init) in
          let end_ := vneg2 start in
          let waypoints := [start; end_] in
          let half := (nwaypoints / 2)%Z in
          let '(waypoints, rng) :=
            foldl (insert_waypoints half length start end_) (waypoints, rng)
                  (seq 0 (Z.to_nat half)) in
          inr (ParamCurve__init__ waypoints, rng)
      end
  end.

End Curve.
End Path.

(** ** gym_auv.objects.obstacles *)

Module Obstacle.
(** Modelled from the spec: [gym_auv/objects/obstacles.py] is not among the
    sources.  Spec 3: "Obstacle - position (x, y), radius > 0"; the
    environment calls [StaticObstacle(position, radius)] and reads
    [obst.position] and [obst.radius]. *)
Record StaticObstacle : Type := {
  position : vec2;
  radius : R }.
End Obstacle.

(** [gym.spaces.Box(low, high, dtype)] *)
Record Box : Type := { low : list R; high : list R }.

(** ** Indexing a one-dimensional numpy array *)

Definition norm_index (n : nat) (i : Z) : option nat :=
  let j := if decide (i < 0)%Z then (i + Z.of_nat n)%Z else i in
  if decide (0 <= j < Z.of_nat n)%Z then Some (Z.to_nat j) else None.

(** [a[i]] *)
Definition getitem (a : list R) (i : Z) : Result R :=
  match norm_index (List.length a) i with
  | Some j => match a !! j with Some x => inr x | None => inl (IndexError i) end
  | None => inl (IndexError i)
  end.

(** [a[i] = x] *)
Definition setitem (a : list R) (i : Z) (x : R) : Result (list R) :=
  match norm_index (List.length a) i with
  | Some j => inr (<[j := x]> a)
  | None => inl (IndexError i)
  end.

(** ** gym_auv.envs.auv_env *)

Section Env.
Context (K : const.t) {X : lib.t}.

(** The attributes of an [AUVEnv] object.  [None] is Python's None;
    [action_space] and [observation_space] are [None] until [__init__]
    assigns them. *)
Record AUVEnv : Type := mkAUVEnv {
  config : gmap string pynum;
  nstates : nat;
  nsectors : nat;
  vessel : option AUV2D;
  path : option Path.ParamCurve;
  np_random : option (lib.RandomState X);
  obstacles : option (list Obstacle.StaticObstacle);
  reward : R;
  path_prog : R;
  last_action : option vec2;
  action_space : option Box;
  observation_space : option Box }.

Definition set_vessel (v : option AUV2D) (e : AUVEnv) : AUVEnv :=
  mkAUVEnv (config e) (nstates e) (nsectors e) v (path e) (np_random e)
    (obstacles e) (reward e) (path_prog e) (last_action e) (action_space e)
    (observation_space e).
Definition set_path (p : option Path.ParamCurve) (e : AUVEnv) : AUVEnv :=
  mkAUVEnv (config e) (nstates e) (nsectors e) (vessel e) p (np_random e)
    (obstacles e) (reward e) (path_prog e) (last_action e) (action_space e)
    (observation_space e).
Definition set_np_random (g : option (lib.RandomState X)) (e : AUVEnv) : AUVEnv :=
  mkAUVEnv (config e) (nstates e) (nsectors e) (vessel e) (path e) g
    (obstacles e) (reward e) (path_prog e) (last_action e) (action_space e)
    (observation_space e).
Definition set_obstacles (o : option (list Obstacle.StaticObstacle)) (e : AUVEnv) : AUVEnv :=
  mkAUVEnv (config e) (nstates e) (nsectors e) (vessel e) (path e) (np_random e)
    o (reward e) (path_prog e) (last_action e) (action_space e)
    (observation_space e).
Definition set_reward (r : R) (e : AUVEnv) : AUVEnv :=
  mkAUVEnv (config e) (nstates e) (nsectors e) (vessel e) (path e) (np_random e)
    (obstacles e) r (path_prog e) (last_action e) (action_space e)
    (observation_space e).
Definition set_path_prog (s : R) (e : AUVEnv) : AUVEnv :=
  mkAUVEnv (config e) (nstates e) (nsectors e) (vessel e) (path e) (np_random e)
    (obstacles e) (reward e) s (last_action e) (action_space e)
    (observation_space e).
Definition set_last_action (a : option vec2) (e : AUVEnv) : AUVEnv :=
  mkAUVEnv (config e) (nstates e) (nsectors e) (vessel e) (path e) (np_random e)
    (obstacles e) (reward e) (path_prog e) a (action_space e)
    (observation_space e).
Definition set_action_space (b : option Box) (e : AUVEnv) : AUVEnv :=
  mkAUVEnv (config e) (nstates e) (nsectors e) (vessel e) (path e) (np_random e)
    (obstacles e) (reward e) (path_prog e) (last_action e) b
    (observation_space e).
Definition set_observation_space (b : option Box) (e : AUVEnv) : AUVEnv :=
  mkAUVEnv (config e) (nstates e) (nsectors e) (vessel e) (path e) (np_random e)
    (obstacles e) (reward e) (path_prog e) (last_action e) (action_space e)
    b.

(** *** Methods as computations on [self]

    A method maps the object to the object as the method leaves it and
    either the exception raised or the value returned. *)
Definition M (A : Type) : Type := AUVEnv -> AUVEnv * Result A.

Definition ret {A : Type} (x : A) : M A := fun self => (self, inr x).
Definition raise {A : Type} (err : PyError) : M A := fun self => (self, inl err).
Definition bind {A B : Type} (c : M A) (k : A -> M B) : M B :=
  fun self =>
    match c self with
    | (self', inl err) => (self', inl err)
    | (self', inr x) => k x self'
    end.
Definition get : M AUVEnv := fun self => (self, inr self).
Definition modify (f : AUVEnv -> AUVEnv) : M unit := fun self => (f self, inr tt).
Definition lift {A : Type} (r : Result A) : M A := fun self => (self, r).

Declare Scope method_scope.
Notation "x <- c ;; k" := (bind c (fun x => k))
  (at level 20, c at level 99, k at level 200, only parsing) : method_scope.
Notation "c ;; k" := (bind c (fun _ => k))
  (at level 100, k at level 200, only parsing, right associativity) : method_scope.
Local Open Scope method_scope.

(** [readonly c]: the computation [c] leaves the object as it is. *)
Definition readonly {A : Type} (c : M A) : Prop := forall self, (c self).1 = self.

(** [self.<field>.<attr>]: reading an attribute of None raises. *)
Definition attr_of {A : Type} (field : AUVEnv -> option A) (attr : string) : M A :=
  self <- get ;;
  match field self with
  | Some x => ret x
  | None => raise (AttributeError "NoneType" attr)
  end.

(** [self.config[key]] *)
Definition config_get (key : string) : M pynum :=
  self <- get ;;
  match config self !! key with
  | Some v => ret v
  | None => raise (KeyError key)
  end.

(** [self.np_random.rand()] *)
Definition np_random_rand : M R :=
  rng <- attr_of np_random "rand" ;;
  let '(x, rng) := lib.rand X rng in
  modify (set_np_random (Some rng)) ;;
  ret x.

(** [for x in xs: body], with the loop's local variables as accumulator. *)
Fixpoint for_each {A S : Type} (xs : list A) (body : S -> A -> M S) (s : S) : M S :=
  match xs with
  | [] => ret s
  | x :: xs => s <- body s x ;; for_each xs body s
  end.

(** The local variables [distance_vec], [ang] and [isector] of the loop over
    the obstacles in [observe]. *)
Definition obstacle_distance_vec (v : AUV2D) (obst : Obstacle.StaticObstacle) : vec3 :=
  dot3 (geom.Rzyx 0 0 (- heading v))
       (hstack0 (vsub2 (Obstacle.position obst) (position v))).

Definition obstacle_ang (distance_vec : vec3) : R :=
  (geom.princip (arctan2 distance_vec.1.2 distance_vec.1.1) + PI) / (2 * PI).

Definition obstacle_isector (nstates nsectors : nat) (ang : R) : Z :=
  (Z.of_nat nstates + floor (ang * INR nsectors))%Z.

(** The body of the loop over the obstacles in [observe]. *)
Definition observe_obstacle (obst_range : R) (obs : list R)
    (obst : Obstacle.StaticObstacle) : M (list R) :=
  v <- attr_of vessel "heading" ;;
  let distance_vec := obstacle_distance_vec v obst in
  let dist := norm3 distance_vec in
  if decide (dist < obst_range + Obstacle.radius obst) then
    let ang := obstacle_ang distance_vec in
    if decide (0 <= ang < 1) then
      vessel_radius <- lift (AUV2D_getattr K v "radius") ;;
      let closeness :=
        1 - clip ((dist - vessel_radius - Obstacle.radius obst) / obst_range) 0 1 in
      self <- get ;;
      let isector := obstacle_isector (nstates self) (nsectors self) ang in
      current <- lift (getitem obs isector) ;;
      if decide (current < closeness) then lift (setitem obs isector closeness)
      else ret obs
    else ret obs
  else ret obs.

Definition observe : M (list R) :=
  los_dist <- config_get "los_dist" ;;
  let los_dist := to_float los_dist in
  obst_range <- config_get "obst_range" ;;
  let obst_range := to_float obst_range in
  self <- get ;;
  p <- attr_of path "get_direction" ;;
  let path_direction := Path.get_direction p (path_prog self) in
  let target_heading := Path.get_direction p (path_prog self + los_dist) in
  v <- attr_of vessel "heading" ;;
  let heading_error := geom.princip (target_heading - heading v) in
  let cross_track_error :=
    (dot3 (geom.Rzyx 0 0 (- path_direction))
          (hstack0 (vsub2 (Path.call p (path_prog self)) (position v)))).1.2 in
  let obs := replicate (nstates self + nsectors self) 0 in
  obs <- lift (setitem obs 0 (clip ((velocity v).1 / max_speed K v) 0 1)) ;;
  obs <- lift (setitem obs 1 (clip ((velocity v).2 / 0.2) (-1) 1)) ;;
  obs <- lift (setitem obs 2 (clip (heading_error / PI) (-1) 1)) ;;
  obs <- lift (setitem obs 3 (clip (cross_track_error / los_dist) (-1) 1)) ;;
  match last_action self with
  | None => raise (TypeError "'NoneType' object is not subscriptable")
  | Some last_action =>
      obs <- lift (setitem obs 4 (clip last_action.1 0 1)) ;;
      obs <- lift (setitem obs 5 (clip last_action.2 (-1) 1)) ;;
      match obstacles self with
      | None => raise (TypeError "'NoneType' object is not iterable")
      | Some obstacles => for_each obstacles (observe_obstacle obst_range) obs
      end
  end.

Definition step_reward (obs : list R) (delta_path_prog : R) : M (bool * R) :=
  self <- get ;;
  let done := false in
  let step_reward := 0 in
  let done :=
    if negb done && bool_decide (reward self < -300) then true else done in
  done <-
    (if negb done then
       p <- attr_of path "length" ;;
       ret (if bool_decide (Rabs (path_prog self - Path.length p) < 1)
            then true else done)
     else ret done) ;;
  v <- attr_of vessel "position" ;;
  p <- attr_of path "get_endpoint" ;;
  let dist_to_endpoint := norm2 (vsub2 (position v) (Path.get_endpoint p)) in
  let done :=
    if negb done && bool_decide (dist_to_endpoint < 10) then true else done in
  step_reward <-
    (if negb done then
       reward_ds <- config_get "reward_ds" ;;
       ret (step_reward + delta_path_prog * to_float reward_ds)
     else ret step_reward) ;;
  step_reward <-
    for_each (seq 0 (nsectors self))
      (fun step_reward sector =>
         closeness <- lift (getitem obs (Z.of_nat (nstates self + sector))) ;;
         reward_closeness <- config_get "reward_closeness" ;;
         ret (step_reward + to_float reward_closeness * closeness ^ 2))
      step_reward ;;
  if negb done then
    obs0 <- lift (getitem obs 0) ;;
    cruise_speed <- config_get "cruise_speed" ;;
    ratio <- lift (py_div (to_float cruise_speed) (max_speed K v)) ;;
    let surge_error := obs0 - ratio in
    cross_track_error <- lift (getitem obs 3) ;;
    reward_cross_track_error <- config_get "reward_cross_track_error" ;;
    let step_reward :=
      step_reward + Rabs cross_track_error * to_float reward_cross_track_error in
    reward_surge_error <- config_get "reward_surge_error" ;;
    let step_reward :=
      step_reward + Rmax 0 (- surge_error) * to_float reward_surge_error in
    ret (done, step_reward)
  else ret (done, step_reward).

(** The body of the loop over [range(self.config["nobstacles"])] in
    [generate]. *)
Definition generate_obstacle (_ : unit) (_ : nat) : M unit :=
  p <- attr_of path "length" ;;
  r <- np_random_rand ;;
  let on_path := Path.call p (0.9 * Path.length p * (r + 0.1)) in
  r0 <- np_random_rand ;;
  r1 <- np_random_rand ;;
  let position := vadd2 on_path (25 * (r0 - 0.5), 25 * (r1 - 0.5)) in
  r <- np_random_rand ;;
  let radius := 10 * (r + 0.5) in
  obstacles <- attr_of obstacles "append" ;;
  modify (set_obstacles
            (Some (obstacles ++ [{| Obstacle.position := position;
                                    Obstacle.radius := radius |}]))).

Definition generate : M unit :=
  self <- get ;;
  curve <- lift (Path.RandomCurveThroughOrigin X (np_random self) None None) ;;
  modify (set_np_random (Some curve.2)) ;;
  modify (set_path (Some curve.1)) ;;
  p <- attr_of path "get_direction" ;;
  let init_pos := Path.call p 0 in
  let init_angle := Path.get_direction p 0 in
  r <- np_random_rand ;;
  let init_pos := (init_pos.1 + 2 * (r - 0.5), init_pos.2) in
  r <- np_random_rand ;;
  let init_pos := (init_pos.1, init_pos.2 + 2 * (r - 0.5)) in
  r <- np_random_rand ;;
  let init_angle := init_angle + 0.1 * (r - 0.5) in
  t_step <- config_get "t_step" ;;
  modify (set_vessel
            (Some (AUV2D__init__ (to_float t_step) (init_pos, init_angle) None))) ;;
  modify (set_last_action (Some (0, 0))) ;;
  nobstacles <- config_get "nobstacles" ;;
  match nobstacles with
  | PyInt n => for_each (seq 0 (Z.to_nat n)) generate_obstacle tt
  | PyFloat _ =>
      raise (TypeError "'float' object cannot be interpreted as an integer")
  end.

Definition seed (seed : option Z) : M (list Z) :=
  let seed := default 5%Z seed in
  let '(rng, seed) := lib.np_random X seed in
  modify (set_np_random (Some rng)) ;;
  ret [seed].

Definition reset : M (list R) :=
  modify (set_vessel None) ;;
  modify (set_path None) ;;
  modify (set_obstacles (Some [])) ;;
  modify (set_reward 0) ;;
  modify (set_path_prog 0) ;;
  self <- get ;;
  (match np_random self with
   | None => _ <- seed None ;; ret tt
   | Some _ => ret tt
   end) ;;
  generate ;;
  observe.

Definition step (action : vec2) : M (list R * R * bool * gmap string pynum) :=
  modify (set_last_action (Some action)) ;;
  v <- attr_of vessel "step" ;;
  modify (set_vessel (Some (AUV2D_step K v action))) ;;
  p <- attr_of path "get_closest_arclength" ;;
  v <- attr_of vessel "position" ;;
  let prog := Path.get_closest_arclength X p (position v) in
  self <- get ;;
  let delta_path_prog := prog - path_prog self in
  modify (set_path_prog prog) ;;
  obs <- observe ;;
  res <- step_reward obs delta_path_prog ;;
  let '(done, step_reward) := res in
  let info : gmap string pynum := ∅ in
  modify (fun self => set_reward (reward self + step_reward) self) ;;
  ret (obs, step_reward, done, info).

(** [AUVEnv.__init__(self, env_config)] on a new object: the object as the
    method leaves it, and the exception if one is raised. *)
Definition AUVEnv__init__ (env_config : gmap string pynum) : AUVEnv * Result unit :=
  let nactions := 2%nat in
  let nobservations := (6 + 8)%nat in
  (reset ;;
   modify (set_action_space
             (Some {| low := replicate nactions (-1); high := replicate nactions 1 |})) ;;
   modify (set_observation_space
             (Some {| low := replicate nobservations (-1);
                      high := replicate nobservations (-1) |})))
    {| config := env_config;
       nstates := 6;
       nsectors := 8;
       vessel := None;
       path := None;
       np_random := None;
       obstacles := None;
       reward := 0;
       path_prog := 0;
       last_action := None;
       action_space := None;
       observation_space := None |}.

(** [AUVEnv(env_config)]: the constructed object, unless [__init__] raises. *)
Definition AUVEnv_new (env_config : gmap string pynum) : Result AUVEnv :=
  match AUVEnv__init__ env_config with
  | (self, inr _) => inr self
  | (_, inl err) => inl err
  end.

(** *** Quantities used to state the properties of [step_reward] *)

Definition sum_R (l : list R) : R := foldr Rplus 0 l.

(** The sum over the sectors of [reward_closeness * closeness ** 2]. *)
Definition closeness_penalty (reward_closeness : R) (self : AUVEnv) (obs : list R) : R :=
  sum_R ((fun sector : nat =>
            reward_closeness * nth (nstates self + sector) obs 0 ^ 2)
           <$> seq 0 (nsectors self)).

(** The three tests by which [step_reward] sets [done]. *)
Definition terminates (self : AUVEnv) (p : Path.ParamCurve) (v : AUV2D) : bool :=
  bool_decide (reward self < -300)
  || bool_decide (Rabs (path_prog self - Path.length p) < 1)
  || bool_decide (norm2 (vsub2 (position v) (Path.get_endpoint p)) < 10).

(** The options read by [step_reward], in the order in which a step that does
    not terminate reads them, and the first of a list of options that a
    configuration lacks. *)
Definition reward_options : list string :=
  ["reward_ds"; "reward_closeness"; "cruise_speed"; "reward_cross_track_error";
   "reward_surge_error"].

Definition first_missing (config : gmap string pynum) (keys : list string)
  : option string :=
  List.find (fun key => match config !! key with None => true | Some _ => false end)
            keys.

End Env.

(** ** A concrete scenario

    The scenario of the spec's section 8: a straight path along +x from
    (0, 0) to (100, 0) and a vessel at rest at the origin with heading 0.
    The constants and the library functions are instances chosen for the
    scenario. *)

Module Scenario.

Definition zero3 : vec3 := (0, 0, 0).

(** Unit mass matrix, thrust acting on surge and rudder on yaw, no damping. *)
Definition K0 : const.t :=
  {| const.THRUST_MIN_AUV := 0;
     const.THRUST_MAX_AUV := 1;
     const.RUDDER_MAX_AUV := 1;
     const.MAX_SPEED := 2;
     const.M_inv := ((1, 0, 0), (0, 1, 0), (0, 0, 1));
     const.B := fun _ => ((1, 0), (0, 0), (0, 1));
     const.D := fun _ => (zero3, zero3, zero3);
     const.C := fun _ => (zero3, zero3, zero3);
     const.L := fun _ => (zero3, zero3, zero3) |}.

(** A generator that counts its draws and always draws 0.5, an interpolant
    that is the straight line along +x, and a minimiser that returns the lower
    bound (the minimiser of the distance to the path for a vessel at the
    origin). *)
Definition X0 : lib.t :=
  {| lib.RandomState := nat;
     lib.rand := fun n => (0.5, S n);
     lib.np_random := fun seed => (0%nat, seed);
     lib.pchip := fun _ _ => (fun s => (s, 0), fun _ => (1, 0));
     lib.fminbound := fun _ x1 _ => x1 |}.

Definition straight : Path.ParamCurve :=
  {| Path.path_coords := fun s => (s, 0);
     Path.path_derivatives := fun _ => (1, 0);
     Path.s_max := 100;
     Path.length := 100;
     Path.path_points := (fun s => (s, 0)) <$> Path.linspace 0 100 1000;
     Path.line := (fun s => (s, 0)) <$> Path.linspace 0 100 1000 |}.

Definition vessel0 : AUV2D := AUV2D__init__ 0.1 (0, 0, 0) None.

Definition config0 : gmap string pynum :=
  list_to_map
    [("reward_ds", PyFloat 1);
     ("reward_closeness", PyFloat (-1));
     ("reward_surge_error", PyFloat (-1));
     ("reward_cross_track_error", PyFloat (-1));
     ("reward_collision", PyFloat (-10));
     ("nobstacles", PyInt 0);
     ("los_dist", PyFloat 10);
     ("obst_range", PyFloat 10);
     ("t_step", PyFloat 0.1);
     ("cruise_speed", PyFloat 1.5)].

(** A second vessel object in the same state: wider, and with another
    history and previous input. *)
Definition vessel0_wide : AUV2D :=
  {| _state := ((0, 0, 0), (0, 0, 0));
     prev_states := [((1, 1, 0), (0, 0, 0)); ((0, 0, 0), (0, 0, 0))];
     width := 6;
     t_step := 0.1;
     input := (1, 0);
     prev_inputs := [(0, 0); (1, 0)] |}.

(** The configuration without the option [reward_ds]. *)
Definition config_without_reward_ds : gmap string pynum := delete "reward_ds" config0.

(** The environment of the scenario, with the given configuration,
    obstacles and accumulated reward. *)
Definition env (config : gmap string pynum)
    (obstacles : list Obstacle.StaticObstacle) (reward : R) : @AUVEnv X0 :=
  {| config := config;
     nstates := 6;
     nsectors := 8;
     vessel := Some vessel0;
     path := Some straight;
     np_random := Some (0%nat : lib.RandomState X0);
     obstacles := Some obstacles;
     reward := reward;
     path_prog := 0;
     last_action := Some (0, 0);
     action_space := Some {| low := replicate 2 (-1); high := replicate 2 1 |};
     observation_space := Some {| low := replicate 14 (-1); high := replicate 14 (-1) |} |}.

(** An obstacle of radius 1 straight ahead of the vessel, 5 away, and one
    straight behind it. *)
Definition ahead : Obstacle.StaticObstacle :=
  {| Obstacle.position := (5, 0); Obstacle.radius := 1 |}.
Definition behind : Obstacle.StaticObstacle :=
  {| Obstacle.position := (-5, 0); Obstacle.radius := 1 |}.

(** An obstacle far outside the detection range. *)
Definition far_away : Obstacle.StaticObstacle :=
  {| Obstacle.position := (50, 0); Obstacle.radius := 1 |}.

End Scenario.

(** ** gym_auv.objects.path, continued *)

Module PathOps.

Section Ops.
Variable X : lib.t.

Definition get_closest_point_distance (self : Path.ParamCurve) (position : vec2)
  : R * vec2 * R :=
  let '(closest_point, closest_arclength) := Path.get_closest_point X self position in
  let closest_point_distance := norm2 (vsub2 closest_point position) in
  (closest_point_distance, closest_point, closest_arclength).

(** The array [waypoints] that [RandomCurveThroughOrigin.__init__] passes
    (transposed) to [ParamCurve.__init__], and the generator after the
    draws. *)
Definition waypoints (rng : lib.RandomState X) (nwaypoints : Z) (length : R)
  : list vec2 * lib.RandomState X :=
  let '(r, rng) := lib.rand X rng in
  let angle_init := 2 * PI * (r - 0.5) in
  let start := (0.5 * length * cos angle_init, 0.5 * length * sin angle_init) in
  let end_ := vneg2 start in
  let waypoints := [start; end_] in
  let half := (nwaypoints / 2)%Z in
  foldl (Path.insert_waypoints X half length start end_) (waypoints, rng)
        (seq 0 (Z.to_nat half)).

End Ops.

(** [reversed(curve)]: a copy of the curve whose [path_coords] runs
    backwards; every other attribute is the copy of the original's. *)
Definition reversed (self : Path.ParamCurve) : Path.ParamCurve :=
  let curve := self in
  let path_coords := Path.path_coords curve in
  {| Path.path_coords := fun s => path_coords (Path.length curve - s);
     Path.path_derivatives := Path.path_derivatives curve;
     Path.s_max := Path.s_max curve;
     Path.length := Path.length curve;
     Path.path_points := Path.path_points curve;
     Path.line := Path.line curve |}.


End PathOps.

(** Where [generate] places an obstacle and how large it makes it: a radius
    in [5, 15), and a position within 12.5 along each axis of a point of the
    path between 9% and 99% of its length. *)
Definition well_placed (p : Path.ParamCurve) (obst : Obstacle.StaticObstacle) : Prop :=
  5 <= Obstacle.radius obst < 15 /\
  exists s,
    0.09 * Path.length p <= s <= 0.99 * Path.length p /\
    Rabs ((Obstacle.position obst).1 - (Path.call p s).1) <= 12.5 /\
    Rabs ((Obstacle.position obst).2 - (Path.call p s).2) <= 12.5.

(** ** gym_auv.rendering

    The geometry computed by the renderer.  The OpenGL and pyglet calls are
    outside the model. *)

Module rendering.

Definition WINDOW_W : R := 720.
Definition WINDOW_H : R := 600.
Definition ZOOM : R := 3.0.

(** The attributes of a [Transform]. *)
Record Transform : Type := {
  translation : vec2;
  rotation : R;
  scale : vec2 }.

Definition Transform__init__ (translation : option vec2) (rotation : option R)
    (scale : option vec2) : Transform :=
  {| translation := default (0.0, 0.0) translation;
     rotation := default 0.0 rotation;
     scale := default (1, 1) scale |}.

(** Where [Transform.enable] takes a vertex: OpenGL applies the scaling, then
    the rotation about the z axis, then the translation. *)
Definition apply (t : Transform) (p : vec2) : vec2 :=
  let x := (scale t).1 * p.1 in
  let y := (scale t).2 * p.2 in
  (cos (rotation t) * x - sin (rotation t) * y + (translation t).1,
   sin (rotation t) * x + cos (rotation t) * y + (translation t).2).

(** [Viewer.set_bounds]: the transform assigned to [self.transform], or
    [None] when the assertion fails. *)
Definition set_bounds (width height left right bottom top : R) : option Transform :=
  if decide (left < right /\ bottom < top) then
    let scalex := width / (right - left) in
    let scaley := height / (top - bottom) in
    Some (Transform__init__ (Some (- left * scalex, - bottom * scaley)) None
            (Some (scalex, scaley)))
  else None.

(** [Viewer.transform_vertices(points, translation, rotation, scale=1)] *)
Definition transform_vertices (points : list vec2) (translation : vec2) (rotation : R)
    (scale : option R) : list vec2 :=
  let scale := default 1 scale in
  (fun p : vec2 =>
     (cos rotation * p.1 * scale - sin rotation * p.2 * scale + translation.1,
      sin rotation * p.1 * scale + cos rotation * p.2 * scale + translation.2))
    <$> points.

(** A geometry with the attributes the drawing functions set: its colour
    [_color.vec4] and, for the line geometries, the stroke of its
    [linewidth]. *)
Inductive Geom : Type :=
| FilledPolygon (v : list vec2) (_color : R * R * R * R)
| PolyLine (v : list vec2) (close : bool) (_color : R * R * R * R) (linewidth : R)
| Line (start end_ : vec2) (_color : R * R * R * R) (linewidth : R).

Definition vertices (g : Geom) : list vec2 :=
  match g with
  | FilledPolygon v _ => v
  | PolyLine v _ _ _ => v
  | Line start end_ _ _ => [start; end_]
  end.

(** [Geom.__init__] gives every geometry the colour (0, 0, 0, 1.0);
    [PolyLine] and [Line] add [LineWidth(1)]. *)
Definition black : R * R * R * R := (0, 0, 0, 1.0).

Definition make_circle (origin : option vec2) (radius : option R) (res : option nat)
    (filled : option bool) : Geom :=
  let origin := default (0, 0) origin in
  let radius := default 10 radius in
  let res := default 30%nat res in
  let filled := default true filled in
  let points :=
    (fun i : nat =>
       let ang := 2 * PI * INR i / INR res in
       (cos ang * radius + origin.1, sin ang * radius + origin.2))
      <$> seq 0 res in
  if filled then FilledPolygon points black else PolyLine points true black 1.

Definition make_polygon (v : list vec2) (filled : option bool) : Geom :=
  if default true filled then FilledPolygon v black else PolyLine v true black 1.

Definition make_polyline (v : list vec2) : Geom := PolyLine v false black 1.

(** The keyword arguments [**attrs] of the drawing functions, as far as
    [_add_attrs] looks at them. *)
Record Attrs : Type := {
  color : option (R * R * R);
  linewidth : option R }.

Definition no_attrs : Attrs := {| color := None; linewidth := None |}.

Definition set_color (geom : Geom) (rgb : R * R * R) : Geom :=
  let '(r, g, b) := rgb in
  match geom with
  | FilledPolygon v _ => FilledPolygon v (r, g, b, 1)
  | PolyLine v close _ w => PolyLine v close (r, g, b, 1) w
  | Line s e _ w => Line s e (r, g, b, 1) w
  end.

(** [FilledPolygon] has no method [set_linewidth], and neither has [Line]. *)
Definition set_linewidth (geom : Geom) (x : R) : Result Geom :=
  match geom with
  | FilledPolygon _ _ => inl (AttributeError "FilledPolygon" "set_linewidth")
  | PolyLine v close c _ => inr (PolyLine v close c x)
  | Line _ _ _ _ => inl (AttributeError "Line" "set_linewidth")
  end.

Definition _add_attrs (geom : Geom) (attrs : Attrs) : Result Geom :=
  let geom :=
    match color attrs with
    | Some rgb => set_color geom rgb
    | None => geom
    end in
  match linewidth attrs with
  | Some x => set_linewidth geom x
  | None => inr geom
  end.

(** The drawing methods of [Viewer], on the list [self.onetime_geoms]: the
    list as the method leaves it and the geometry returned or the exception
    raised. *)
Definition draw_circle (origin : option vec2) (radius : option R) (res : option nat)
    (filled outline : option bool) (attrs : Attrs) (onetime_geoms : list Geom)
  : list Geom * Result Geom :=
  let geom := make_circle origin radius res filled in
  match _add_attrs geom attrs with
  | inl err => (onetime_geoms, inl err)
  | inr geom =>
      let onetime_geoms := onetime_geoms ++ [geom] in
      if default true filled && default true outline then
        let outl := make_circle origin radius res (Some false) in
        match _add_attrs outl {| color := Some (0, 0, 0); linewidth := Some 1 |} with
        | inl err => (onetime_geoms, inl err)
        | inr outl => (onetime_geoms ++ [outl], inr geom)
        end
      else (onetime_geoms, inr geom)
  end.

Definition draw_polygon (v : list vec2) (filled : option bool) (attrs : Attrs)
    (onetime_geoms : list Geom) : list Geom * Result Geom :=
  let geom := make_polygon v filled in
  match _add_attrs geom attrs with
  | inl err => (onetime_geoms, inl err)
  | inr geom => (onetime_geoms ++ [geom], inr geom)
  end.

Definition draw_polyline (v : list vec2) (attrs : Attrs) (onetime_geoms : list Geom)
  : list Geom * Result Geom :=
  let geom := make_polyline v in
  match _add_attrs geom attrs with
  | inl err => (onetime_geoms, inl err)
  | inr geom => (onetime_geoms ++ [geom], inr geom)
  end.

Definition draw_line (start end_ : vec2) (attrs : Attrs) (onetime_geoms : list Geom)
  : list Geom * Result Geom :=
  let geom := Line start end_ black 1 in
  match _add_attrs geom attrs with
  | inl err => (onetime_geoms, inl err)
  | inr geom => (onetime_geoms ++ [geom], inr geom)
  end.

Definition TRIANGLE_POLY : list vec2 := [(-1, -1); (1, -1); (0, 1)].

(** [draw_arrow(base, angle, length, **attrs)] passes [linewidth=2] together
    with [**attrs] to [draw_polyline]: a [linewidth] in [attrs] is a repeated
    keyword argument. *)
Definition draw_arrow (base : vec2) (angle length : R) (attrs : Attrs)
    (onetime_geoms : list Geom) : list Geom * Result unit :=
  let head := (base.1 + length * cos angle, base.2 + length * sin angle) in
  let tri := transform_vertices TRIANGLE_POLY head (angle - PI / 2) (Some 0.7) in
  match linewidth attrs with
  | Some _ =>
      (onetime_geoms,
       inl (TypeError "draw_polyline() got multiple values for keyword argument 'linewidth'"))
  | None =>
      match draw_polyline [base; head] {| color := color attrs; linewidth := Some 2 |}
              onetime_geoms with
      | (onetime_geoms, inl err) => (onetime_geoms, inl err)
      | (onetime_geoms, inr _) =>
          match draw_polygon tri None attrs onetime_geoms with
          | (onetime_geoms, inl err) => (onetime_geoms, inl err)
          | (onetime_geoms, inr _) => (onetime_geoms, inr tt)
          end
      end
  end.

(** [draw_shape(vertices, position, angle, color)]: [poly_path[0]] raises
    IndexError when there is no vertex, after the polygon has been drawn. *)
Definition draw_shape (vertices : list vec2) (position : vec2) (angle : R)
    (color : R * R * R) (onetime_geoms : list Geom) : list Geom * Result unit :=
  let poly_path := transform_vertices vertices position angle None in
  match draw_polygon poly_path None {| color := Some color; linewidth := None |}
          onetime_geoms with
  | (onetime_geoms, inl err) => (onetime_geoms, inl err)
  | (onetime_geoms, inr _) =>
      match poly_path with
      | [] => (onetime_geoms, inl (IndexError 0))
      | first :: _ =>
          match draw_polyline (poly_path ++ [first])
                  {| color := Some (0, 0, 0); linewidth := Some 2 |} onetime_geoms with
          | (onetime_geoms, inl err) => (onetime_geoms, inl err)
          | (onetime_geoms, inr _) => (onetime_geoms, inr tt)
          end
      end
  end.

(** The camera of [render_env]: the update of the global [rot_angle] and the
    transform set on the viewer, for a vessel at [position] with [heading]. *)
Definition next_rot_angle (rot_angle : option R) (heading : R) : R :=
  let ship_angle := - heading + PI / 2 in
  match rot_angle with
  | None => ship_angle
  | Some rot_angle => rot_angle + 0.01 * (ship_angle - rot_angle)
  end.

Definition camera (rot_angle : option R) (position : vec2) (heading : R) : Transform :=
  let scroll_x := position.1 in
  let scroll_y := position.2 in
  let rot_angle := next_rot_angle rot_angle heading in
  {| scale := (ZOOM, ZOOM);
     translation :=
       (WINDOW_W / 2 - (scroll_x * ZOOM * cos rot_angle - scroll_y * ZOOM * sin rot_angle),
        WINDOW_H / 2 - (scroll_x * ZOOM * sin rot_angle + scroll_y * ZOOM * cos rot_angle));
     rotation := rot_angle |}.

(** The hull that [_render_vessel] passes to [draw_shape]. *)
Definition vessel_shape (width : R) : list vec2 :=
  [(- width, - width); (- width, width); (2 * width, width); (3 * width, 0);
   (2 * width, - width)].

(** [_render_vessel(env)], on the vessel of the environment and the list
    [env.viewer.onetime_geoms]. *)
Definition _render_vessel (vessel : AUV2D) (onetime_geoms : list Geom)
  : list Geom * Result unit :=
  match draw_polyline (path_taken vessel)
          {| color := Some (0.8, 0, 0); linewidth := Some 3 |} onetime_geoms with
  | (onetime_geoms, inl err) => (onetime_geoms, inl err)
  | (onetime_geoms, inr _) =>
      match draw_shape (vessel_shape (width vessel)) (position vessel) (heading vessel)
              (0, 0, 0.8) onetime_geoms with
      | (onetime_geoms, inl err) => (onetime_geoms, inl err)
      | (onetime_geoms, inr _) =>
          draw_arrow (position vessel) (heading vessel + PI + (input vessel).2 / 4) 2
            no_attrs onetime_geoms
      end
  end.

End rendering.

(** ** Facts on the numeric helpers *)

Lemma clip_bounds (x lo hi : R) : lo <= hi -> lo <= clip x lo hi <= hi.
Proof.
  intros Hle. unfold clip, Rmin, Rmax.
  repeat destruct (Rle_dec _ _); lra.
Qed.

Lemma princip_lower (angle : R) : - PI < geom.princip angle.
Proof.
  unfold geom.princip, floor.
  pose proof PI_RGT_0 as Hpi.
  destruct (Zfloor_bound ((PI - angle) / (2 * PI))) as [_ Hup].
  apply (Rmult_lt_compat_r (2 * PI)) in Hup; [|lra].
  replace ((PI - angle) / (2 * PI) * (2 * PI)) with (PI - angle) in Hup
    by (field; lra).
  lra.
Qed.

Lemma princip_upper (angle : R) : geom.princip angle <= PI.
Proof.
  unfold geom.princip, floor.
  pose proof PI_RGT_0 as Hpi.
  destruct (Zfloor_bound ((PI - angle) / (2 * PI))) as [Hlo _].
  apply (Rmult_le_compat_r (2 * PI)) in Hlo; [|lra].
  replace ((PI - angle) / (2 * PI) * (2 * PI)) with (PI - angle) in Hlo
    by (field; lra).
  lra.
Qed.

Lemma princip_period (angle : R) :
  geom.princip (angle + 2 * PI) = geom.princip angle.
Proof.
  unfold geom.princip, floor.
  pose proof PI_RGT_0 as Hpi.
  replace ((PI - (angle + 2 * PI)) / (2 * PI))
    with ((PI - angle) / (2 * PI) + IZR (-1)) by (field; lra).
  rewrite Zfloor_addz, plus_IZR. simpl IZR. lra.
Qed.

(** C6. For every real angle, the principal-angle wrapping returns a value in
    the half-open interval (-pi, pi], and the wrapping is 2pi-periodic. *)
Theorem princip_range_and_period (angle : R) :
  (- PI < geom.princip angle <= PI) /\
  geom.princip (angle + 2 * PI) = geom.princip angle.
Proof.
  split; [split|].
  - apply princip_lower.
  - apply princip_upper.
  - apply princip_period.
Qed.


(** ** Methods that leave the object as it is *)

Section Methods.
Context (K : const.t) {X : lib.t}.

Lemma readonly_ret {A : Type} (x : A) : readonly (@ret X A x).
Proof. intros self. reflexivity. Qed.

Lemma readonly_raise {A : Type} (err : PyError) : readonly (@raise X A err).
Proof. intros self. reflexivity. Qed.

Lemma readonly_get : readonly (@get X).
Proof. intros self. reflexivity. Qed.

Lemma readonly_lift {A : Type} (r : Result A) : readonly (@lift X A r).
Proof. intros self. reflexivity. Qed.

Lemma readonly_bind {A B : Type} (c : M A) (k : A -> @M X B) :
  readonly c -> (forall x, readonly (k x)) -> readonly (bind c k).
Proof.
  intros Hc Hk self. unfold bind.
  specialize (Hc self). destruct (c self) as [self' [err|x]]; simpl in *; subst.
  - reflexivity.
  - apply Hk.
Qed.

Lemma readonly_attr_of {A : Type} (field : @AUVEnv X -> option A) (attr : string) :
  readonly (attr_of field attr).
Proof.
  apply readonly_bind; [apply readonly_get|].
  intros self. destruct (field self); [apply readonly_ret | apply readonly_raise].
Qed.

Lemma readonly_config_get (key : string) : readonly (@config_get X key).
Proof.
  apply readonly_bind; [apply readonly_get|].
  intros self. destruct (config self !! key); [apply readonly_ret | apply readonly_raise].
Qed.

Lemma readonly_for_each {A S : Type} (xs : list A) (body : S -> A -> @M X S) (s : S) :
  (forall s x, readonly (body s x)) -> readonly (for_each xs body s).
Proof.
  intros Hbody. revert s.
  induction xs as [|x xs IH]; intros s; simpl.
  - apply readonly_ret.
  - apply readonly_bind; [apply Hbody | apply IH].
Qed.

Lemma readonly_if {A : Type} (b : bool) (c1 c2 : @M X A) :
  readonly c1 -> readonly c2 -> readonly (if b then c1 else c2).
Proof. destruct b; trivial. Qed.

Lemma readonly_if_decide {A : Type} (P : Prop) `{Decision P} (c1 c2 : @M X A) :
  readonly c1 -> readonly c2 -> readonly (if decide P then c1 else c2).
Proof. destruct (decide P); trivial. Qed.

End Methods.

Create HintDb readonly.
#[global] Hint Resolve readonly_ret readonly_raise readonly_get readonly_lift
  readonly_attr_of readonly_config_get : readonly.

Ltac readonly_step :=
  cbv zeta;
  first
    [ solve [auto with readonly]
    | apply readonly_bind; [|intros ?]
    | apply readonly_for_each; intros ? ?
    | apply readonly_if
    | apply readonly_if_decide ].

Section ReadOnlyMethods.
Context (K : const.t) {X : lib.t}.

Lemma readonly_observe_obstacle (obst_range : R) (obs : list R)
    (obst : Obstacle.StaticObstacle) :
  readonly (@observe_obstacle K X obst_range obs obst).
Proof. unfold observe_obstacle. repeat readonly_step. Qed.

Lemma readonly_observe : readonly (@observe K X).
Proof.
  unfold observe. repeat readonly_step.
  destruct (last_action _); [|auto with readonly].
  repeat readonly_step.
  destruct (obstacles _); [|auto with readonly].
  apply readonly_for_each. intros. apply readonly_observe_obstacle.
Qed.

Lemma readonly_step_reward (obs : list R) (delta_path_prog : R) :
  readonly (@step_reward K X obs delta_path_prog).
Proof. unfold step_reward. repeat readonly_step. Qed.

End ReadOnlyMethods.

(** ** Running a method step by step *)

Section Running.
Context {X : lib.t}.

Lemma bind_inr {A B : Type} (c : M A) (k : A -> @M X B) self self' x :
  c self = (self', inr x) -> bind c k self = k x self'.
Proof. intros H. unfold bind. rewrite H. reflexivity. Qed.

Lemma bind_inl {A B : Type} (c : M A) (k : A -> @M X B) self self' err :
  c self = (self', inl err) -> bind c k self = (self', inl err).
Proof. intros H. unfold bind. rewrite H. reflexivity. Qed.

Lemma attr_of_Some {A : Type} (field : @AUVEnv X -> option A) attr self x :
  field self = Some x -> attr_of field attr self = (self, inr x).
Proof. intros H. unfold attr_of, bind, get. rewrite H. reflexivity. Qed.

Lemma attr_of_None {A : Type} (field : @AUVEnv X -> option A) attr self :
  field self = None ->
  attr_of field attr self = (self, inl (AttributeError "NoneType" attr)).
Proof. intros H. unfold attr_of, bind, get. rewrite H. reflexivity. Qed.

Lemma config_get_Some key (self : @AUVEnv X) v :
  config self !! key = Some v -> config_get key self = (self, inr v).
Proof. intros H. unfold config_get, bind, get. rewrite H. reflexivity. Qed.

Lemma config_get_None key (self : @AUVEnv X) :
  config self !! key = None -> config_get key self = (self, inl (KeyError key)).
Proof. intros H. unfold config_get, bind, get. rewrite H. reflexivity. Qed.

Lemma norm_index_nat (n i : nat) : (i < n)%nat -> norm_index n (Z.of_nat i) = Some i.
Proof.
  intros Hi. unfold norm_index.
  destruct (decide (Z.of_nat i < 0)%Z); [lia|].
  destruct (decide (0 <= Z.of_nat i < Z.of_nat n)%Z); [|lia].
  rewrite Nat2Z.id. reflexivity.
Qed.

Lemma getitem_nat (a : list R) (i : nat) :
  (i < List.length a)%nat -> getitem a (Z.of_nat i) = inr (nth i a 0).
Proof.
  intros Hi. unfold getitem. rewrite norm_index_nat by exact Hi.
  destruct (a !! i) as [x|] eqn:Hx.
  - rewrite (nth_lookup_Some _ _ 0 _ Hx). reflexivity.
  - apply lookup_ge_None in Hx. lia.
Qed.

Lemma setitem_nat (a : list R) (i : nat) (x : R) :
  (i < List.length a)%nat -> setitem a (Z.of_nat i) x = inr (<[i := x]> a).
Proof. intros Hi. unfold setitem. rewrite norm_index_nat by exact Hi. reflexivity. Qed.

End Running.

(** [mstep]: run the first command of a method whose result is known. *)
Ltac mrun :=
  first [ apply attr_of_Some; eassumption
        | apply config_get_Some; eassumption
        | reflexivity
        | erewrite bind_inr; [|mrun];
          cbn beta iota zeta delta [negb andb orb]; mrun ].

Ltac mstep :=
  erewrite bind_inr; [|mrun];
  cbn beta iota zeta delta [negb andb orb].

(** ** The frame of [step] *)

Section Frame.
Context (K : const.t) {X : lib.t}.

(** [step] as one expression: the object after the dynamics and the
    progress update, then [observe] and [step_reward] on it. *)
Lemma step_unfold (action : vec2) (self : @AUVEnv X) (v : AUV2D) (p : Path.ParamCurve) :
  vessel self = Some v ->
  path self = Some p ->
  let v' := AUV2D_step K v action in
  let prog := Path.get_closest_arclength X p (position v') in
  let self1 :=
    set_path_prog prog (set_vessel (Some v') (set_last_action (Some action) self)) in
  step K action self =
    match (observe K self1).2 with
    | inl err => (self1, inl err)
    | inr obs =>
        match (step_reward K obs (prog - path_prog self) self1).2 with
        | inl err => (self1, inl err)
        | inr (done, r) =>
            (set_reward (reward self1 + r) self1, inr (obs, r, done, ∅))
        end
    end.
Proof.
  intros Hv Hp v' prog self1.
  unfold step, bind at 1, modify at 1. 
  unfold bind at 1, attr_of at 1, bind at 1, get at 1.
  cbn [vessel set_last_action]. rewrite Hv. unfold ret at 1.
  unfold bind at 1, modify at 1.
  unfold bind at 1, attr_of at 1, bind at 1, get at 1.
  cbn [path set_vessel set_last_action]. rewrite Hp. unfold ret at 1.
  unfold bind at 1, attr_of at 1, bind at 1, get at 1.
  cbn [vessel set_vessel]. unfold ret at 1.
  unfold bind at 1, get at 1.
  unfold bind at 1, modify at 1.
  cbn [path_prog set_vessel set_last_action].
  fold v'. fold prog. fold self1.
  unfold bind at 1.
  pose proof (readonly_observe K self1) as Hobs.
  destruct (observe K self1) as [self2 [err|obs]]; cbn [fst snd] in *; subst self2;
    [reflexivity|].
  unfold bind at 1.
  pose proof (readonly_step_reward K obs (prog - path_prog self) self1) as Hrew.
  destruct (step_reward K obs (prog - path_prog self) self1) as [self2 [err|[done r]]];
    cbn [fst snd] in *; subst self2; reflexivity.
Qed.

(** Through [step] the vessel advances by its own dynamics: what the vessel
    becomes does not depend on the generator, the path, the obstacles or the
    configuration, also when [step] raises afterwards. *)
Lemma step_vessel (action : vec2) (self : @AUVEnv X) (v : AUV2D) :
  vessel self = Some v ->
  vessel (step K action self).1 = Some (AUV2D_step K v action).
Proof.
  intros Hv.
  destruct (path self) as [p|] eqn:Hp.
  - rewrite (step_unfold action self v p Hv Hp). cbv zeta.
    destruct (observe K _).2 as [err|obs]; [reflexivity|].
    destruct (step_reward K _ _ _).2 as [err|[done r]]; reflexivity.
  - unfold step.
    erewrite bind_inr by reflexivity.
    erewrite bind_inr by (apply attr_of_Some; exact Hv).
    erewrite bind_inr by reflexivity.
    erewrite bind_inl; [|apply attr_of_None; exact Hp]. reflexivity.
Qed.

(** C9. A call to [step] leaves the path object and the set of obstacles as
    they are (and with them the configuration, the random generator and the
    declared sizes and spaces): only the vessel, the progress, the accumulated
    reward and the last action are assigned. *)
Theorem step_frame (action : vec2) (self : @AUVEnv X) :
  let self' := (step K action self).1 in
  path self' = path self /\
  obstacles self' = obstacles self /\
  config self' = config self /\
  np_random self' = np_random self /\
  nstates self' = nstates self /\
  nsectors self' = nsectors self /\
  action_space self' = action_space self /\
  observation_space self' = observation_space self.
Proof.
  cbv zeta.
  destruct (vessel self) as [v|] eqn:Hv.
  - destruct (path self) as [p|] eqn:Hp.
    + rewrite (step_unfold action self v p Hv Hp). cbv zeta.
      destruct (observe K _).2 as [err|obs]; [cbn; rewrite Hp; tauto|].
      destruct (step_reward K _ _ _).2 as [err|[done r]]; cbn; rewrite Hp; tauto.
    + unfold step, bind, modify, attr_of, get, ret, raise. cbn.
      rewrite Hv. cbn. rewrite Hp. cbn. rewrite Hp. tauto.
  - unfold step, bind, modify, attr_of, get, ret, raise. cbn.
    rewrite Hv. cbn. tauto.
Qed.

End Frame.

(** ** Episode generation *)

Section Generation.
Context (K : const.t) {X : lib.t}.

(** [generate] calls [RandomCurveThroughOrigin(rng=self.np_random)], which
    does not pass the required argument [nwaypoints]. *)
Lemma generate_raises (self : @AUVEnv X) :
  generate self =
    (self,
     inl (TypeError "__init__() missing 1 required positional argument: 'nwaypoints'")).
Proof. reflexivity. Qed.

Lemma AUVEnv_new_raises (env_config : gmap string pynum) :
  @AUVEnv_new K X env_config =
    inl (TypeError "__init__() missing 1 required positional argument: 'nwaypoints'").
Proof.
  unfold AUVEnv_new, AUVEnv__init__.
  unfold reset, bind, modify, get, ret. cbn [np_random set_path_prog set_reward
    set_obstacles set_path set_vessel].
  unfold seed, bind, modify, ret. cbn [default].
  destruct (lib.np_random X 5) as [rng sd].
  rewrite generate_raises. reflexivity.
Qed.

(** C1. On the sources, every call to [reset] raises TypeError: [generate]
    constructs the path without the required argument [nwaypoints], so no
    path, vessel or obstacle is generated and no observation is returned; the
    same holds for the call made by [__init__]. *)
Theorem reset_raises_TypeError (self : @AUVEnv X) :
  (exists self',
     reset K self =
       (self',
        inl (TypeError "__init__() missing 1 required positional argument: 'nwaypoints'"))
     /\ path self' = None /\ vessel self' = None /\ obstacles self' = Some []) /\
  (forall env_config,
     @AUVEnv_new K X env_config =
       inl (TypeError "__init__() missing 1 required positional argument: 'nwaypoints'")).
Proof.
  split; [|apply AUVEnv_new_raises].
  unfold reset, bind, modify, get, ret. cbn [np_random set_path_prog set_reward
    set_obstacles set_path set_vessel].
  destruct (np_random self) as [rng|].
  - rewrite generate_raises. eexists. split; [reflexivity|]. cbn. tauto.
  - unfold seed, bind, modify, ret. cbn [default].
    destruct (lib.np_random X 5) as [rng sd].
    rewrite generate_raises. eexists. split; [reflexivity|]. cbn. tauto.
Qed.

End Generation.

(** ** Vessel dynamics *)

Section Dynamics.
Variable K : const.t.

Lemma AUV2D_step_t_step (self : AUV2D) (action : vec2) :
  t_step (AUV2D_step K self action) = t_step self.
Proof.
  unfold AUV2D_step, _sim. cbn [_state t_step input].
  destruct (_state self) as [eta nu].
  destruct (vadd3 eta _) as [[x y] psi]. reflexivity.
Qed.

(** The state after a step is a function of the state before it, the timestep
    and the action: the history and the previous input do not enter. *)
Lemma AUV2D_step_state (self1 self2 : AUV2D) (action : vec2) :
  _state self1 = _state self2 ->
  t_step self1 = t_step self2 ->
  _state (AUV2D_step K self1 action) = _state (AUV2D_step K self2 action).
Proof.
  intros Hs Ht. unfold AUV2D_step, _sim. cbn [_state t_step input].
  rewrite Hs, Ht. destruct (_state self2) as [eta nu].
  destruct (vadd3 eta _) as [[x y] psi]. reflexivity.
Qed.

(** C7. The dynamics are deterministic: two runs from the same vessel state,
    with the same timestep and the same sequence of actions, end in the same
    vessel state, whatever else the two vessel objects hold. *)
Theorem AUV2D_steps_deterministic (self1 self2 : AUV2D) (actions : list vec2) :
  _state self1 = _state self2 ->
  t_step self1 = t_step self2 ->
  _state (AUV2D_steps K self1 actions) = _state (AUV2D_steps K self2 actions).
Proof.
  unfold AUV2D_steps. revert self1 self2.
  induction actions as [|a actions IH]; intros self1 self2 Hs Ht; simpl.
  - exact Hs.
  - apply IH.
    + apply AUV2D_step_state; assumption.
    + rewrite !AUV2D_step_t_step. exact Ht.
Qed.

End Dynamics.

(** ** The reward *)

Section Reward.
Context (K : const.t) {X : lib.t}.

(** The loop over the sectors adds [reward_closeness * closeness ** 2] for
    each sector to the reward so far. *)
Lemma closeness_loop (self : @AUVEnv X) (obs : list R) (w : pynum) (ns : nat) :
  config self !! "reward_closeness" = Some w ->
  forall (n i : nat) (r0 : R),
    (ns + i + n <= List.length obs)%nat ->
    for_each (seq i n)
      (fun step_reward sector =>
         bind (lift (getitem obs (Z.of_nat (ns + sector))))
           (fun closeness =>
              bind (config_get "reward_closeness")
                (fun reward_closeness =>
                   ret (step_reward + to_float reward_closeness * closeness ^ 2))))
      r0 self
    = (self,
       inr (r0 + sum_R ((fun sector : nat => to_float w * nth (ns + sector) obs 0 ^ 2)
                          <$> seq i n))).
Proof.
  intros Hw n. induction n as [|n IH]; intros i r0 Hlen.
  - cbn. unfold ret. do 2 f_equal. lra.
  - cbn [seq for_each].
    erewrite bind_inr; cycle 1.
    { erewrite bind_inr; cycle 1.
      { unfold lift. rewrite getitem_nat by lia. reflexivity. }
      mstep. reflexivity. }
    rewrite IH by lia. cbn [fmap list_fmap sum_R foldr].
    do 2 f_equal. unfold sum_R. lra.
Qed.

(** The value of [step_reward] when every option it reads is configured. *)
Lemma step_reward_eval (self : @AUVEnv X) (obs : list R) (delta_path_prog : R)
    (p : Path.ParamCurve) (v : AUV2D)
    (reward_ds reward_closeness cruise_speed reward_cross_track_error
       reward_surge_error : pynum) :
  path self = Some p ->
  vessel self = Some v ->
  (3 < nstates self)%nat ->
  List.length obs = (nstates self + nsectors self)%nat ->
  const.MAX_SPEED K <> 0 ->
  config self !! "reward_ds" = Some reward_ds ->
  config self !! "reward_closeness" = Some reward_closeness ->
  config self !! "cruise_speed" = Some cruise_speed ->
  config self !! "reward_cross_track_error" = Some reward_cross_track_error ->
  config self !! "reward_surge_error" = Some reward_surge_error ->
  let done := terminates self p v in
  let surge_error := nth 0 obs 0 - to_float cruise_speed / const.MAX_SPEED K in
  step_reward K obs delta_path_prog self =
    (self,
     inr (done,
          (if done then 0 else delta_path_prog * to_float reward_ds)
          + closeness_penalty (to_float reward_closeness) self obs
          + (if done then 0
             else Rabs (nth 3 obs 0) * to_float reward_cross_track_error
                  + Rmax 0 (- surge_error) * to_float reward_surge_error))).
Proof.
  intros Hp Hv Hns Hlen Hmax Hds Hcl Hcs Hcte Hse done surge_error.
  assert (Hdiv : py_div (to_float cruise_speed) (max_speed K v)
                 = inr (to_float cruise_speed / const.MAX_SPEED K)).
  { unfold py_div, max_speed. destruct (decide (const.MAX_SPEED K = 0)); [lra|reflexivity]. }
  assert (H0 : getitem obs 0 = inr (nth 0 obs 0)).
  { apply (getitem_nat obs 0). lia. }
  assert (H3 : getitem obs 3 = inr (nth 3 obs 0)).
  { apply (getitem_nat obs 3). lia. }
  subst done surge_error. unfold terminates, closeness_penalty, step_reward.
  mstep. cbn [negb andb].
  destruct (bool_decide (reward self < -300)) eqn:E1; cbn [negb andb orb].
  - (* the accumulated reward is below -300 *)
    do 3 mstep. mstep.
    erewrite bind_inr; [|apply (closeness_loop self obs _ _ Hcl); lia].
    unfold ret. do 3 f_equal. lra.
  - mstep.
    destruct (bool_decide (Rabs (path_prog self - Path.length p) < 1)) eqn:E2;
      cbn [negb andb orb].
    + do 3 mstep.
      erewrite bind_inr; [|apply (closeness_loop self obs _ _ Hcl); lia].
      unfold ret. do 3 f_equal. lra.
    + do 2 mstep.
      destruct (bool_decide (norm2 (vsub2 (position v) (Path.get_endpoint p)) < 10))
        eqn:E3; cbn [negb andb orb].
      * mstep.
        erewrite bind_inr; [|apply (closeness_loop self obs _ _ Hcl); lia].
        unfold ret. do 3 f_equal. lra.
      * mstep.
        erewrite bind_inr; [|apply (closeness_loop self obs _ _ Hcl); lia].
        erewrite bind_inr; [|unfold lift; rewrite H0; reflexivity].
        mstep.
        erewrite bind_inr; [|unfold lift; rewrite Hdiv; reflexivity].
        erewrite bind_inr; [|unfold lift; rewrite H3; reflexivity].
        do 2 mstep. cbn [negb andb orb].
        unfold ret. do 3 f_equal. lra.
Qed.

(** C3. [step_reward] adds the closeness penalty
    [reward_closeness * closeness ** 2] of every sector whether or not the step
    terminates the episode, and adds the progress term, the cross-track term
    and the surge term only when the step does not terminate. *)
Theorem step_reward_terms (self : @AUVEnv X) (obs : list R) (delta_path_prog : R)
    (p : Path.ParamCurve) (v : AUV2D)
    (reward_ds reward_closeness cruise_speed reward_cross_track_error
       reward_surge_error : pynum) :
  path self = Some p ->
  vessel self = Some v ->
  (3 < nstates self)%nat ->
  List.length obs = (nstates self + nsectors self)%nat ->
  const.MAX_SPEED K <> 0 ->
  config self !! "reward_ds" = Some reward_ds ->
  config self !! "reward_closeness" = Some reward_closeness ->
  config self !! "cruise_speed" = Some cruise_speed ->
  config self !! "reward_cross_track_error" = Some reward_cross_track_error ->
  config self !! "reward_surge_error" = Some reward_surge_error ->
  exists done progress_term closeness_term error_terms,
    step_reward K obs delta_path_prog self =
      (self, inr (done, progress_term + closeness_term + error_terms)) /\
    done = terminates self p v /\
    closeness_term = closeness_penalty (to_float reward_closeness) self obs /\
    (done = true -> progress_term = 0 /\ error_terms = 0) /\
    (done = false ->
     progress_term = delta_path_prog * to_float reward_ds /\
     error_terms =
       Rabs (nth 3 obs 0) * to_float reward_cross_track_error
       + Rmax 0 (- (nth 0 obs 0 - to_float cruise_speed / const.MAX_SPEED K))
         * to_float reward_surge_error).
Proof.
  intros Hp Hv Hns Hlen Hmax Hds Hcl Hcs Hcte Hse.
  pose proof (step_reward_eval self obs delta_path_prog p v _ _ _ _ _
                Hp Hv Hns Hlen Hmax Hds Hcl Hcs Hcte Hse) as Heval.
  cbv zeta in Heval.
  eexists _, _, _, _. split; [exact Heval|].
  split; [reflexivity|]. split; [reflexivity|].
  destruct (terminates self p v); split; intros Hd; try discriminate;
    split; reflexivity.
Qed.

End Reward.

(** ** Termination *)

Section Termination.
Context (K : const.t) {X : lib.t}.

(** When [step_reward] returns, [done] is the disjunction of its three tests,
    taken on the object as [step_reward] finds it. *)
Lemma step_reward_done (self self' : @AUVEnv X) (obs : list R) (delta_path_prog : R)
    (done : bool) (r : R) :
  step_reward K obs delta_path_prog self = (self', inr (done, r)) ->
  exists p v,
    path self = Some p /\ vessel self = Some v /\ done = terminates self p v.
Proof.
  intros H.
  destruct (vessel self) as [v|] eqn:Hv; cycle 1.
  { exfalso. unfold step_reward in H. revert H. mstep.
    destruct (bool_decide (reward self < -300)); cbn [negb andb].
    - mstep. erewrite bind_inl; [|apply attr_of_None; exact Hv]. discriminate.
    - destruct (path self) as [p|] eqn:Hp.
      + mstep. erewrite bind_inl; [|apply attr_of_None; exact Hv]. discriminate.
      + erewrite bind_inl; [discriminate|].
        erewrite bind_inl; [reflexivity|apply attr_of_None; exact Hp]. }
  destruct (path self) as [p|] eqn:Hp; cycle 1.
  { exfalso. unfold step_reward in H. revert H. mstep.
    destruct (bool_decide (reward self < -300)); cbn [negb andb].
    - do 2 mstep. erewrite bind_inl; [|apply attr_of_None; exact Hp]. discriminate.
    - erewrite bind_inl; [discriminate|].
      erewrite bind_inl; [reflexivity|apply attr_of_None; exact Hp]. }
  exists p, v. split; [reflexivity|]. split; [reflexivity|].
  unfold terminates. unfold step_reward in H. revert H. mstep.
  destruct (bool_decide (reward self < -300)); cbn [negb andb orb].
  - do 3 mstep. unfold bind, ret.
    destruct (for_each _ _ _ _) as [s [err|r2]]; intros H; inversion H; reflexivity.
  - mstep.
    destruct (bool_decide (Rabs (path_prog self - Path.length p) < 1));
      cbn [negb andb orb].
    + do 3 mstep. unfold bind, ret.
      destruct (for_each _ _ _ _) as [s [err|r2]]; intros H; inversion H; reflexivity.
    + do 2 mstep.
      destruct (bool_decide (norm2 (vsub2 (position v) (Path.get_endpoint p)) < 10));
        cbn [negb andb orb].
      * mstep. unfold bind, ret.
        destruct (for_each _ _ _ _) as [s [err|r2]]; intros H; inversion H; reflexivity.
      * unfold bind, ret, lift.
        destruct (config_get "reward_ds" self) as [s1 [err|w1]]; [discriminate|].
        destruct (for_each _ _ _ _) as [s2 [err|r2]]; [discriminate|].
        destruct (getitem obs 0) as [err|o0]; [discriminate|].
        destruct (config_get "cruise_speed" s2) as [s3 [err|w3]]; [discriminate|].
        destruct (py_div _ _) as [err|q]; [discriminate|].
        destruct (getitem obs 3) as [err|o3]; [discriminate|].
        destruct (config_get "reward_cross_track_error" s3) as [s4 [err|w4]];
          [discriminate|].
        destruct (config_get "reward_surge_error" s4) as [s5 [err|w5]];
          [discriminate|].
        intros H; inversion H; reflexivity.
Qed.

Lemma step_needs_vessel_and_path (action : vec2) (self : @AUVEnv X) :
  vessel self = None \/ path self = None ->
  exists self' err, step K action self = (self', inl err).
Proof.
  intros Hnone. unfold step.
  erewrite bind_inr by reflexivity.
  destruct (vessel self) as [v|] eqn:Hv.
  - destruct Hnone as [Hnone|Hp]; [discriminate|].
    erewrite bind_inr by (apply attr_of_Some; exact Hv).
    erewrite bind_inr by reflexivity.
    erewrite bind_inl; [eauto|]. apply attr_of_None. exact Hp.
  - erewrite bind_inl; [eauto|]. apply attr_of_None. exact Hv.
Qed.

(** C2, as the code has it. When [step] returns, [done] is decided from the
    reward accumulated by the previous steps, not counting the reward of the
    current step, which is added afterwards: [done] is true exactly when that
    reward is below -300 or one of the two goal tests holds.  A step called
    with the accumulated reward below -300 therefore returns [done = true]. *)
Theorem step_done_from_previous_reward (action : vec2) (self self' : @AUVEnv X)
    (obs : list R) (r : R) (done : bool) (info : gmap string pynum) :
  step K action self = (self', inr (obs, r, done, info)) ->
  reward self' = reward self + r /\
  (exists p v,
     path self' = Some p /\ vessel self' = Some v /\
     done = bool_decide (reward self < -300)
            || bool_decide (Rabs (path_prog self' - Path.length p) < 1)
            || bool_decide (norm2 (vsub2 (position v) (Path.get_endpoint p)) < 10)) /\
  (reward self < -300 -> done = true).
Proof.
  intros Hstep.
  destruct (vessel self) as [v|] eqn:Hv; cycle 1.
  { destruct (step_needs_vessel_and_path action self (or_introl Hv)) as (s & err & Hs).
    rewrite Hs in Hstep. discriminate. }
  destruct (path self) as [p|] eqn:Hp; cycle 1.
  { destruct (step_needs_vessel_and_path action self (or_intror Hp)) as (s & err & Hs).
    rewrite Hs in Hstep. discriminate. }
  rewrite (step_unfold K action self v p Hv Hp) in Hstep. cbv zeta in Hstep.
  destruct (observe K _).2 as [err|obs1]; [discriminate|].
  set (self1 := set_path_prog _ _) in *.
  set (delta := _ - path_prog self) in *.
  pose proof (readonly_step_reward K obs1 delta self1) as Hro.
  destruct (step_reward K obs1 delta self1) as [self2 res] eqn:Hrew.
  cbn [fst snd] in Hro, Hstep. subst self2.
  destruct res as [err|[done1 r1]]; [discriminate|].
  inversion Hstep; subst; clear Hstep.
  apply step_reward_done in Hrew. destruct Hrew as (p1 & v1 & Hp1 & Hv1 & Hdone).
  assert (Hprior : done = bool_decide (reward self < -300)
            || bool_decide (Rabs (path_prog self1 - Path.length p1) < 1)
            || bool_decide (norm2 (vsub2 (position v1) (Path.get_endpoint p1)) < 10)).
  { exact Hdone. }
  split; [reflexivity|]. split.
  - exists p1, v1. split; [exact Hp1|]. split; [exact Hv1|]. exact Hprior.
  - intros Hlt. rewrite Hprior. rewrite (bool_decide_eq_true_2 _ Hlt). reflexivity.
Qed.

End Termination.

(** ** Options missing from the configuration *)

Section MissingOptions.
Context (K : const.t) {X : lib.t}.

Lemma closeness_loop_missing (self : @AUVEnv X) (obs : list R) (ns : nat) :
  config self !! "reward_closeness" = None ->
  forall (n i : nat) (r0 : R),
    (ns + i < List.length obs)%nat ->
    for_each (seq i (S n))
      (fun step_reward sector =>
         bind (lift (getitem obs (Z.of_nat (ns + sector))))
           (fun closeness =>
              bind (config_get "reward_closeness")
                (fun reward_closeness =>
                   ret (step_reward + to_float reward_closeness * closeness ^ 2))))
      r0 self
    = (self, inl (KeyError "reward_closeness")).
Proof.
  intros Hw n i r0 Hlen. cbn [seq for_each].
  erewrite bind_inl; [reflexivity|].
  erewrite bind_inr; cycle 1.
  { unfold lift. rewrite getitem_nat by lia. reflexivity. }
  erewrite bind_inl; [reflexivity|]. apply config_get_None. exact Hw.
Qed.

(** A step that does not terminate raises KeyError for the first of the
    options of [step_reward] that the configuration lacks; a step that
    terminates reads [reward_closeness] only. *)
Lemma step_reward_missing (self : @AUVEnv X) (obs : list R) (delta_path_prog : R)
    (p : Path.ParamCurve) (v : AUV2D) :
  path self = Some p ->
  vessel self = Some v ->
  (3 < nstates self)%nat ->
  (0 < nsectors self)%nat ->
  List.length obs = (nstates self + nsectors self)%nat ->
  const.MAX_SPEED K <> 0 ->
  (forall key,
     terminates self p v = false ->
     first_missing (config self) reward_options = Some key ->
     step_reward K obs delta_path_prog self = (self, inl (KeyError key))) /\
  (terminates self p v = true ->
   config self !! "reward_closeness" = None ->
   step_reward K obs delta_path_prog self = (self, inl (KeyError "reward_closeness"))).
Proof.
  intros Hp Hv Hns Hnsec Hlen Hmax.
  assert (H0 : getitem obs 0 = inr (nth 0 obs 0)).
  { apply (getitem_nat obs 0). lia. }
  assert (H3 : getitem obs 3 = inr (nth 3 obs 0)).
  { apply (getitem_nat obs 3). lia. }
  assert (Hdiv : forall c, py_div c (max_speed K v) = inr (c / const.MAX_SPEED K)).
  { intros c. unfold py_div, max_speed.
    destruct (decide (const.MAX_SPEED K = 0)); [lra|reflexivity]. }
  destruct (nsectors self) as [|nsec] eqn:Hnsec'; [lia|].
  split.
  - intros key Hterm Hmiss. unfold terminates in Hterm.
    apply orb_false_iff in Hterm. destruct Hterm as [Hterm E3].
    apply orb_false_iff in Hterm. destruct Hterm as [E1 E2].
    unfold step_reward. mstep. rewrite E1. cbn [negb andb].
    mstep. rewrite E2. do 2 mstep. rewrite E3. cbn [negb andb].
    unfold first_missing, reward_options in Hmiss. cbn [List.find] in Hmiss.
    destruct (config self !! "reward_ds") as [w1|] eqn:Hds; cycle 1.
    { inversion Hmiss; subst key.
      erewrite bind_inl; [reflexivity|].
      erewrite bind_inl; [reflexivity|]. apply config_get_None. exact Hds. }
    mstep.
    destruct (config self !! "reward_closeness") as [w2|] eqn:Hcl; cycle 1.
    { inversion Hmiss; subst key.
      erewrite bind_inl; [reflexivity|]. rewrite Hnsec'.
      apply closeness_loop_missing; [exact Hcl|lia]. }
    erewrite bind_inr; [|rewrite Hnsec'; apply (closeness_loop self obs _ _ Hcl); lia].
    erewrite bind_inr; [|unfold lift; rewrite H0; reflexivity].
    destruct (config self !! "cruise_speed") as [w3|] eqn:Hcs; cycle 1.
    { inversion Hmiss; subst key.
      erewrite bind_inl; [reflexivity|]. apply config_get_None. exact Hcs. }
    mstep.
    erewrite bind_inr; [|unfold lift; rewrite Hdiv; reflexivity].
    erewrite bind_inr; [|unfold lift; rewrite H3; reflexivity].
    destruct (config self !! "reward_cross_track_error") as [w4|] eqn:Hcte; cycle 1.
    { inversion Hmiss; subst key.
      erewrite bind_inl; [reflexivity|]. apply config_get_None. exact Hcte. }
    mstep.
    destruct (config self !! "reward_surge_error") as [w5|] eqn:Hse; cycle 1.
    { inversion Hmiss; subst key.
      erewrite bind_inl; [reflexivity|]. apply config_get_None. exact Hse. }
    discriminate.
  - intros Hterm Hcl. unfold terminates in Hterm. unfold step_reward. mstep.
    destruct (bool_decide (reward self < -300)) eqn:E1; cbn [negb andb orb] in *.
    + do 4 mstep.
      erewrite bind_inl; [reflexivity|]. rewrite Hnsec'.
      apply closeness_loop_missing; [exact Hcl|lia].
    + mstep.
      destruct (bool_decide (Rabs (path_prog self - Path.length p) < 1)) eqn:E2;
        cbn [negb andb orb] in *.
      * do 3 mstep.
        erewrite bind_inl; [reflexivity|]. rewrite Hnsec'.
        apply closeness_loop_missing; [exact Hcl|lia].
      * do 2 mstep. rewrite Hterm. cbn [negb andb]. mstep.
        erewrite bind_inl; [reflexivity|]. rewrite Hnsec'.
        apply closeness_loop_missing; [exact Hcl|lia].
Qed.

(** C8, as the code has it. An option is read from the configuration where
    it is used and is never given a default: the method that reads a missing
    option raises KeyError naming it.  [observe] raises for [los_dist] and
    [obst_range]; [step_reward], which only [step] calls, raises for
    [reward_closeness] on every step and for the first missing one of
    [reward_ds], [reward_closeness], [cruise_speed],
    [reward_cross_track_error] and [reward_surge_error] on a step that does
    not terminate. *)
Theorem missing_option_raises_where_read (self : @AUVEnv X) (obs : list R)
    (delta_path_prog : R) (p : Path.ParamCurve) (v : AUV2D) :
  path self = Some p ->
  vessel self = Some v ->
  (3 < nstates self)%nat ->
  (0 < nsectors self)%nat ->
  List.length obs = (nstates self + nsectors self)%nat ->
  const.MAX_SPEED K <> 0 ->
  (config self !! "los_dist" = None ->
   observe K self = (self, inl (KeyError "los_dist"))) /\
  (is_Some (config self !! "los_dist") ->
   config self !! "obst_range" = None ->
   observe K self = (self, inl (KeyError "obst_range"))) /\
  (forall key,
     terminates self p v = false ->
     first_missing (config self) reward_options = Some key ->
     step_reward K obs delta_path_prog self = (self, inl (KeyError key))) /\
  (terminates self p v = true ->
   config self !! "reward_closeness" = None ->
   step_reward K obs delta_path_prog self = (self, inl (KeyError "reward_closeness"))).
Proof.
  intros Hp Hv Hns Hnsec Hlen Hmax.
  destruct (step_reward_missing self obs delta_path_prog p v Hp Hv Hns Hnsec Hlen Hmax)
    as [Hrun Hend].
  split; [|split; [|split; [exact Hrun|exact Hend]]].
  - intros Hlos. unfold observe.
    erewrite bind_inl; [reflexivity|]. apply config_get_None. exact Hlos.
  - intros [w Hlos] Hrange. unfold observe. mstep.
    erewrite bind_inl; [reflexivity|]. apply config_get_None. exact Hrange.
Qed.

End MissingOptions.

(** ** The loop over the obstacles in [observe] *)

Section Sectors.
Context (K : const.t) {X : lib.t}.

Lemma obstacle_isector_bounds (ns nsec : nat) (ang : R) :
  (0 < nsec)%nat ->
  0 <= ang < 1 ->
  (Z.of_nat ns <= obstacle_isector ns nsec ang < Z.of_nat (ns + nsec))%Z.
Proof.
  intros Hpos [Hlo Hhi]. unfold obstacle_isector, floor.
  assert (Hn : 0 < INR nsec) by (apply lt_0_INR; lia).
  assert (H0 : (0 <= Zfloor (ang * INR nsec))%Z).
  { apply Zfloor_lub. simpl. nra. }
  assert (H1 : (Zfloor (ang * INR nsec) < Z.of_nat nsec)%Z).
  { apply lt_IZR. rewrite <- INR_IZR_INZ.
    destruct (Zfloor_bound (ang * INR nsec)) as [Hfl _]. nra. }
  lia.
Qed.

Lemma norm_index_sector (ns nsec : nat) (ang : R) :
  (0 < nsec)%nat ->
  0 <= ang < 1 ->
  exists j : nat,
    norm_index (ns + nsec) (obstacle_isector ns nsec ang) = Some j /\
    (ns <= j < ns + nsec)%nat.
Proof.
  intros Hpos Hang.
  pose proof (obstacle_isector_bounds ns nsec ang Hpos Hang) as Hb.
  exists (Z.to_nat (obstacle_isector ns nsec ang)). split; [|lia].
  unfold norm_index.
  destruct (decide (obstacle_isector ns nsec ang < 0)%Z); [lia|].
  destruct (decide (0 <= obstacle_isector ns nsec ang < Z.of_nat (ns + nsec))%Z);
    [reflexivity|lia].
Qed.

(** An obstacle at or beyond [obst_range + obst.radius] is skipped. *)
Lemma observe_obstacle_far (self : @AUVEnv X) (v : AUV2D) (obst_range : R)
    (obs : list R) (obst : Obstacle.StaticObstacle) :
  vessel self = Some v ->
  obst_range + Obstacle.radius obst <= norm3 (obstacle_distance_vec v obst) ->
  observe_obstacle K obst_range obs obst self = (self, inr obs).
Proof.
  intros Hv Hfar. unfold observe_obstacle. mstep.
  destruct (decide _) as [Hlt|_]; [lra|reflexivity].
Qed.

(** An obstacle whose remapped bearing is outside [0, 1) is skipped. *)
Lemma observe_obstacle_unguarded (self : @AUVEnv X) (v : AUV2D) (obst_range : R)
    (obs : list R) (obst : Obstacle.StaticObstacle) :
  vessel self = Some v ->
  ~ (0 <= obstacle_ang (obstacle_distance_vec v obst) < 1) ->
  observe_obstacle K obst_range obs obst self = (self, inr obs).
Proof.
  intros Hv Hang. unfold observe_obstacle. mstep.
  destruct (decide _) as [_|_]; [|reflexivity].
  destruct (decide _) as [Hin|_]; [tauto|reflexivity].
Qed.

(** An obstacle in range whose remapped bearing is in [0, 1): the body reads
    [self.vessel.radius], which [AUV2D] does not have. *)
Lemma observe_obstacle_near (self : @AUVEnv X) (v : AUV2D) (obst_range : R)
    (obs : list R) (obst : Obstacle.StaticObstacle) :
  vessel self = Some v ->
  norm3 (obstacle_distance_vec v obst) < obst_range + Obstacle.radius obst ->
  0 <= obstacle_ang (obstacle_distance_vec v obst) < 1 ->
  observe_obstacle K obst_range obs obst self =
    (self, inl (AttributeError "AUV2D" "radius")).
Proof.
  intros Hv Hnear Hang. unfold observe_obstacle. mstep.
  destruct (decide _) as [_|Hn]; [|lra].
  destruct (decide _) as [_|Hn]; [|tauto].
  reflexivity.
Qed.

(** C5, on the sources. For an obstacle within range whose remapped bearing
    is in [0, 1), the loop body does not get to the closeness: it reads
    [self.vessel.radius], and [AUV2D] has the attribute [width] and no
    attribute [radius], so the body raises AttributeError and assigns no
    sector channel. *)
Theorem closeness_reads_missing_radius (self : @AUVEnv X) (v : AUV2D)
    (obst_range : R) (obs : list R) (obst : Obstacle.StaticObstacle) :
  vessel self = Some v ->
  norm3 (obstacle_distance_vec v obst) < obst_range + Obstacle.radius obst ->
  0 <= obstacle_ang (obstacle_distance_vec v obst) < 1 ->
  AUV2D_getattr K v "radius" = inl (AttributeError "AUV2D" "radius") /\
  AUV2D_getattr K v "width" = inr (width v) /\
  observe_obstacle K obst_range obs obst self =
    (self, inl (AttributeError "AUV2D" "radius")).
Proof.
  intros Hv Hnear Hang. split; [reflexivity|]. split; [reflexivity|].
  unfold observe_obstacle. mstep.
  destruct (decide _) as [_|Hfar]; [|lra].
  destruct (decide _) as [_|Hout]; [|tauto].
  erewrite bind_inl; reflexivity.
Qed.

(** C10. Under the guard [0 <= ang < 1] the sector index
    [nstates + floor(ang * nsectors)] lies in the sector slots of the
    observation vector (indices 6 to 13 for the sizes set by [__init__]), so
    reading and writing [obs[isector]] cannot be out of bounds and the loop
    body never raises IndexError; an obstacle whose remapped bearing is
    exactly 1 is skipped, the vector left as it is. *)
Theorem sector_index_guarded (self : @AUVEnv X) (v : AUV2D) (obst_range : R)
    (obs : list R) (obst : Obstacle.StaticObstacle) :
  vessel self = Some v ->
  (0 < nsectors self)%nat ->
  List.length obs = (nstates self + nsectors self)%nat ->
  (forall ang : R,
     0 <= ang < 1 ->
     let isector := obstacle_isector (nstates self) (nsectors self) ang in
     (Z.of_nat (nstates self) <= isector < Z.of_nat (nstates self + nsectors self))%Z /\
     (nstates self = 6%nat -> nsectors self = 8%nat -> (6 <= isector <= 13)%Z) /\
     (exists x, getitem obs isector = inr x) /\
     (forall c, exists obs',
        setitem obs isector c = inr obs' /\ List.length obs' = List.length obs)) /\
  (forall i, (observe_obstacle K obst_range obs obst self).2 <> inl (IndexError i)) /\
  (obstacle_ang (obstacle_distance_vec v obst) = 1 ->
   observe_obstacle K obst_range obs obst self = (self, inr obs)).
Proof.
  intros Hv Hpos Hlen. split; [|split].
  - intros ang Hang isector.
    pose proof (obstacle_isector_bounds (nstates self) (nsectors self) ang Hpos Hang)
      as Hb.
    destruct (norm_index_sector (nstates self) (nsectors self) ang Hpos Hang)
      as (j & Hj & Hjb).
    fold isector in Hb, Hj.
    split; [exact Hb|]. split; [intros H6 H8; rewrite H6, H8 in Hb; lia|]. split.
    + unfold getitem. rewrite Hlen, Hj.
      destruct (obs !! j) as [x|] eqn:Hx; [eauto|].
      apply lookup_ge_None in Hx. lia.
    + intros c. unfold setitem. rewrite Hlen, Hj. eexists. split; [reflexivity|].
      rewrite length_insert. exact Hlen.
  - intros i.
    destruct (Rlt_le_dec (norm3 (obstacle_distance_vec v obst))
                (obst_range + Obstacle.radius obst)) as [Hnear|Hfar].
    + destruct (decide (0 <= obstacle_ang (obstacle_distance_vec v obst) < 1))
        as [Hang|Hang].
      * rewrite (observe_obstacle_near self v _ _ _ Hv Hnear Hang). discriminate.
      * rewrite (observe_obstacle_unguarded self v _ _ _ Hv Hang). discriminate.
    + rewrite (observe_obstacle_far self v _ _ _ Hv Hfar). discriminate.
  - intros Hone. apply (observe_obstacle_unguarded self v); [exact Hv|].
    rewrite Hone. lra.
Qed.

(** When the loop body returns, it returns the vector it was given: no
    obstacle gets as far as writing its closeness. *)
Lemma observe_obstacle_returns (self self' : @AUVEnv X) (obst_range : R)
    (obs obs' : list R) (obst : Obstacle.StaticObstacle) :
  observe_obstacle K obst_range obs obst self = (self', inr obs') -> obs' = obs.
Proof.
  destruct (vessel self) as [v|] eqn:Hv.
  - destruct (Rlt_le_dec (norm3 (obstacle_distance_vec v obst))
                (obst_range + Obstacle.radius obst)) as [Hnear|Hfar].
    + destruct (decide (0 <= obstacle_ang (obstacle_distance_vec v obst) < 1))
        as [Hang|Hang].
      * rewrite (observe_obstacle_near self v _ _ _ Hv Hnear Hang). discriminate.
      * rewrite (observe_obstacle_unguarded self v _ _ _ Hv Hang).
        intros H; inversion H; reflexivity.
    + rewrite (observe_obstacle_far self v _ _ _ Hv Hfar).
      intros H; inversion H; reflexivity.
  - unfold observe_obstacle. erewrite bind_inl; [discriminate|].
    apply attr_of_None. exact Hv.
Qed.

Lemma observe_obstacles_return (obstacles : list Obstacle.StaticObstacle)
    (self self' : @AUVEnv X) (obst_range : R) (obs obs' : list R) :
  for_each obstacles (observe_obstacle K obst_range) obs self = (self', inr obs') ->
  obs' = obs.
Proof.
  revert obs self. induction obstacles as [|obst obstacles IH]; intros obs self; cbn.
  - unfold ret. intros H; inversion H; reflexivity.
  - unfold bind at 1.
    destruct (observe_obstacle K obst_range obs obst self) as [s [err|obs1]] eqn:Hb;
      [discriminate|].
    apply observe_obstacle_returns in Hb. subst obs1. apply IH.
Qed.

End Sectors.

(** ** The observation *)

(** [set_item i]: run an assignment [obs[i] = x] that is in bounds. *)
Ltac set_item i :=
  erewrite bind_inr;
  [| unfold lift; rewrite (setitem_nat _ i)
       by (rewrite ?length_insert, ?length_replicate; lia);
     reflexivity ];
  cbn beta iota zeta.

Section Observation.
Context (K : const.t) {X : lib.t}.

(** The rotation into the vessel's frame keeps the distance. *)
Lemma obstacle_distance_vec_norm (v : AUV2D) (obst : Obstacle.StaticObstacle) :
  norm3 (obstacle_distance_vec v obst)
  = norm2 (vsub2 (Obstacle.position obst) (position v)).
Proof.
  unfold obstacle_distance_vec, geom.Rzyx, dot3, row_dot3, hstack0, norm3, norm2.
  set (d := vsub2 _ _). destruct d as [dx dy]. cbn [fst snd].
  set (c := cos (- heading v)). set (s := sin (- heading v)).
  assert (Hcs : s * s + c * c = 1).
  { subst s c. pose proof (sin2_cos2 (- heading v)) as H. unfold Rsqr in H. exact H. }
  f_equal.
  replace ((c * dx + - s * dy + 0 * 0) * (c * dx + - s * dy + 0 * 0)
           + (s * dx + c * dy + 0 * 0) * (s * dx + c * dy + 0 * 0)
           + (0 * dx + 0 * dy + 1 * 0) * (0 * dx + 0 * dy + 1 * 0))
    with ((s * s + c * c) * (dx * dx + dy * dy)) by ring.
  rewrite Hcs. ring.
Qed.



End Observation.

(** ** Evaluating the numeric helpers *)

Lemma clip_inside (x lo hi : R) : lo <= x <= hi -> clip x lo hi = x.
Proof.
  intros [Hlo Hhi]. unfold clip, Rmin, Rmax.
  repeat destruct (Rle_dec _ _); lra.
Qed.

Lemma princip_inside (angle : R) : - PI < angle <= PI -> geom.princip angle = angle.
Proof.
  intros [Hlo Hhi]. unfold geom.princip, floor.
  pose proof PI_RGT_0 as Hpi.
  rewrite (Zfloor_eq 0).
  - simpl. lra.
  - simpl. split.
    + apply Rmult_le_pos; [lra|]. apply Rlt_le, Rinv_0_lt_compat. lra.
    + apply (Rmult_lt_reg_r (2 * PI)); [lra|].
      replace ((PI - angle) / (2 * PI) * (2 * PI)) with (PI - angle) by (field; lra).
      lra.
Qed.

Lemma arctan2_ahead (x : R) : 0 < x -> arctan2 0 x = 0.
Proof.
  intros Hx. unfold arctan2. destruct (decide (0 < x)) as [_|Hn]; [|lra].
  replace (0 / x) with 0 by (field; lra). apply atan_0.
Qed.

Lemma arctan2_behind (x : R) : x < 0 -> arctan2 0 x = PI.
Proof.
  intros Hx. unfold arctan2.
  destruct (decide (0 < x)) as [Hn|_]; [lra|].
  destruct (decide (x < 0)) as [_|Hn]; [|lra].
  destruct (decide (0 <= 0)) as [_|Hn]; [|lra].
  replace (0 / x) with 0 by (field; lra). rewrite atan_0. lra.
Qed.

Lemma norm2_on_axis (x : R) : norm2 (x, 0) = Rabs x.
Proof.
  unfold norm2. cbn [fst snd].
  replace (x * x + 0 * 0) with (Rsqr x) by (unfold Rsqr; ring).
  apply sqrt_Rsqr_abs.
Qed.

(** ** Evaluating the scenario *)

Module ScenarioFacts.
Import Scenario.

Lemma config0_lookup :
  config0 !! "reward_ds" = Some (PyFloat 1) /\
  config0 !! "reward_closeness" = Some (PyFloat (-1)) /\
  config0 !! "reward_surge_error" = Some (PyFloat (-1)) /\
  config0 !! "reward_cross_track_error" = Some (PyFloat (-1)) /\
  config0 !! "los_dist" = Some (PyFloat 10) /\
  config0 !! "obst_range" = Some (PyFloat 10) /\
  config0 !! "cruise_speed" = Some (PyFloat 1.5).
Proof. repeat split; reflexivity. Qed.

(** A vessel at rest at the origin stays there under the zero action. *)
Lemma rest_step (v : AUV2D) :
  _state v = ((0, 0, 0), (0, 0, 0)) ->
  _state (AUV2D_step K0 v (0, 0)) = ((0, 0, 0), (0, 0, 0)).
Proof.
  intros Hs. unfold AUV2D_step, _sim. cbn [_state t_step input]. rewrite Hs.
  cbn [fst snd vadd3 vscale3 dot3 dot32 vsub3 row_dot3 row_dot2 geom.Rzyx K0
       const.M_inv const.B const.C const.D const.L zero3].
  unfold _surge, _steer. cbn [K0 const.THRUST_MAX_AUV const.THRUST_MIN_AUV
                              const.RUDDER_MAX_AUV fst snd].
  rewrite (clip_inside 0 0 1) by lra. rewrite (clip_inside 0 (-1) 1) by lra.
  pose proof PI_RGT_0 as Hpi.
  rewrite (princip_inside 0) by lra.
  cbn [_state]. unfold row_dot2. cbn [fst snd].
  repeat f_equal; try ring.
  match goal with |- geom.princip ?a = 0 => replace a with 0 by ring end.
  apply princip_inside. lra.
Qed.

(** The state channels of a vessel at rest at the start of the straight
    path are all 0; the loop over the obstacles starts from the zero vector. *)
Lemma observe_at_rest (self : @AUVEnv X0) (v : AUV2D)
    (obsts : list Obstacle.StaticObstacle) :
  nstates self = 6%nat ->
  nsectors self = 8%nat ->
  vessel self = Some v ->
  _state v = ((0, 0, 0), (0, 0, 0)) ->
  path self = Some straight ->
  path_prog self = 0 ->
  last_action self = Some (0, 0) ->
  obstacles self = Some obsts ->
  config self !! "los_dist" = Some (PyFloat 10) ->
  config self !! "obst_range" = Some (PyFloat 10) ->
  observe K0 self = for_each obsts (observe_obstacle K0 10) (replicate 14 0) self.
Proof.
  intros H6 H8 Hv Hs Hp Hprog Hact Hobsts Hlos Hrange.
  pose proof PI_RGT_0 as Hpi.
  assert (Hdir : forall s, Path.get_direction straight s = 0).
  { intros s. unfold Path.get_direction. cbn. apply arctan2_ahead. lra. }
  assert (H0 : clip ((velocity v).1 / max_speed K0 v) 0 1 = 0).
  { unfold velocity, max_speed. rewrite Hs. cbn.
    replace (0 / 2) with 0 by lra. apply clip_inside. lra. }
  assert (H1 : clip ((velocity v).2 / 0.2) (-1) 1 = 0).
  { unfold velocity. rewrite Hs. cbn.
    replace (0 / 0.2) with 0 by lra. apply clip_inside. lra. }
  assert (H2 : forall s, clip (geom.princip (Path.get_direction straight s - heading v) / PI)
                 (-1) 1 = 0).
  { intros s. rewrite Hdir. unfold heading. rewrite Hs. cbn [fst snd].
    replace (0 - 0) with 0 by lra. rewrite princip_inside by lra.
    replace (0 / PI) with 0 by (unfold Rdiv; ring). apply clip_inside. lra. }
  assert (H3 : forall s,
             clip ((dot3 (geom.Rzyx 0 0 (- Path.get_direction straight s))
                      (hstack0 (vsub2 (Path.call straight 0) (position v)))).1.2
                   / to_float (PyFloat 10)) (-1) 1 = 0).
  { intros s. unfold position. rewrite Hs.
    cbn [fst snd dot3 row_dot3 geom.Rzyx hstack0 vsub2 Path.call straight
         Path.path_coords to_float].
    match goal with |- clip (?a / 10) _ _ = 0 => replace a with 0 by ring end.
    replace (0 / 10) with 0 by lra. apply clip_inside. lra. }
  unfold observe. do 3 mstep. do 2 mstep. rewrite H6, H8, Hprog, Hact, Hobsts.
  change (6 + 8)%nat with 14%nat.
  set_item 0%nat. set_item 1%nat. set_item 2%nat. set_item 3%nat.
  set_item 4%nat. set_item 5%nat.
  rewrite H0, H1, H2, H3. cbn [fst snd].
  rewrite (clip_inside 0 0 1) by lra. rewrite (clip_inside 0 (-1) 1) by lra.
  reflexivity.
Qed.

Lemma straight_not_reached :
  ~ (Rabs (0 - Path.length straight) < 1) /\
  norm2 (vsub2 (0, 0) (Path.get_endpoint straight)) = 100.
Proof.
  split.
  - cbn [Path.length straight]. unfold Rabs. destruct (Rcase_abs _); lra.
  - unfold norm2, vsub2. cbn.
    replace ((0 - 100) * (0 - 100) + (0 - 0) * (0 - 0)) with (100 * 100) by ring.
    apply sqrt_square. lra.
Qed.

(** One step of the vessel at rest at the start of the straight path, under
    the zero action and without obstacles. *)
Lemma step_at_rest (self : @AUVEnv X0) (v : AUV2D) :
  nstates self = 6%nat ->
  nsectors self = 8%nat ->
  vessel self = Some v ->
  _state v = ((0, 0, 0), (0, 0, 0)) ->
  path self = Some straight ->
  path_prog self = 0 ->
  obstacles self = Some [] ->
  config self = config0 ->
  exists r,
    step K0 (0, 0) self =
      (set_reward (reward self + r)
         (set_path_prog 0
            (set_vessel (Some (AUV2D_step K0 v (0, 0)))
               (set_last_action (Some (0, 0)) self))),
       inr (replicate 14 0, r, bool_decide (reward self < -300), ∅)) /\
    r = if bool_decide (reward self < -300) then 0 else -0.75.
Proof.
  intros H6 H8 Hv Hs Hp Hprog Hobsts Hcfg.
  destruct config0_lookup as (Hds & Hcl & Hse & Hcte & Hlos & Hrange & Hcs).
  pose proof (rest_step v Hs) as Hs'.
  rewrite (step_unfold K0 (0, 0) self v straight Hv Hp). cbv zeta.
  assert (Hpos : position (AUV2D_step K0 v (0, 0)) = (0, 0)).
  { unfold position. rewrite Hs'. reflexivity. }
  change (Path.get_closest_arclength X0 straight (position (AUV2D_step K0 v (0, 0))))
    with 0.
  set (self1 := set_path_prog 0 _).
  rewrite (observe_at_rest self1 (AUV2D_step K0 v (0, 0)) [])
    by (first [ assumption | reflexivity | (cbn; rewrite Hcfg; assumption) ]).
  cbn [for_each ret snd].
  rewrite (step_reward_eval K0 self1 (replicate 14 0) (0 - path_prog self) straight
             (AUV2D_step K0 v (0, 0)) (PyFloat 1) (PyFloat (-1)) (PyFloat 1.5)
             (PyFloat (-1)) (PyFloat (-1)));
    try (first [ assumption | reflexivity | (cbn; rewrite Hcfg; assumption) ]);
    cycle 1.
  { cbn. rewrite H6. lia. }
  { cbn. rewrite H6, H8. reflexivity. }
  { cbn. lra. }
  cbn [snd].
  destruct straight_not_reached as [Hfar1 Hfar2].
  assert (Hterm : terminates self1 straight (AUV2D_step K0 v (0, 0))
                  = bool_decide (reward self < -300)).
  { unfold terminates. rewrite Hpos, Hfar2.
    change (path_prog self1) with 0. change (reward self1) with (reward self).
    rewrite (bool_decide_eq_false_2 _ Hfar1).
    rewrite (bool_decide_eq_false_2 (100 < 10)) by lra.
    rewrite !orb_false_r. reflexivity. }
  rewrite Hterm.
  assert (Hpen : closeness_penalty (to_float (PyFloat (-1))) self1 (replicate 14 0) = 0).
  { unfold closeness_penalty. change (nstates self1) with (nstates self).
    change (nsectors self1) with (nsectors self). rewrite H6, H8.
    cbn [seq fmap list_fmap sum_R foldr Nat.add nth replicate to_float]. lra. }
  rewrite Hpen.
  eexists. split; [reflexivity|].
  change (nth 3 (replicate 14 0) 0) with 0. change (nth 0 (replicate 14 0) 0) with 0.
  rewrite Hprog. cbn [to_float K0 const.MAX_SPEED].
  destruct (bool_decide (reward self < -300)); [lra|].
  rewrite Rabs_R0. unfold Rmax. destruct (Rle_dec _ _); lra.
Qed.

(** An obstacle on the x axis, seen from the vessel at rest at the origin. *)
Lemma distance_vec_on_axis (x r : R) :
  let dv :=
    obstacle_distance_vec vessel0 {| Obstacle.position := (x, 0); Obstacle.radius := r |} in
  dv.1.1 = x /\ dv.1.2 = 0 /\ norm3 dv = Rabs x.
Proof.
  cbv zeta. split; [|split].
  - unfold obstacle_distance_vec, heading, position. cbn. rewrite Ropp_0, cos_0, sin_0. ring.
  - unfold obstacle_distance_vec, heading, position. cbn. rewrite Ropp_0, cos_0, sin_0. ring.
  - rewrite obstacle_distance_vec_norm. unfold position, vsub2.
    cbn [vessel0 AUV2D__init__ _state fst snd Obstacle.position].
    replace (x - 0, 0 - 0) with (x, 0) by (f_equal; ring).
    apply norm2_on_axis.
Qed.

Lemma ahead_seen :
  norm3 (obstacle_distance_vec vessel0 ahead) < 10 + Obstacle.radius ahead /\
  obstacle_ang (obstacle_distance_vec vessel0 ahead) = 1 / 2.
Proof.
  destruct (distance_vec_on_axis 5 1) as (Hx & Hy & Hn). fold ahead in Hx, Hy, Hn.
  pose proof PI_RGT_0 as Hpi.
  split.
  - rewrite Hn. cbn [Obstacle.radius ahead]. rewrite Rabs_pos_eq by lra. lra.
  - unfold obstacle_ang. rewrite Hx, Hy, arctan2_ahead by lra.
    rewrite princip_inside by lra. field. lra.
Qed.

Lemma behind_seen :
  norm3 (obstacle_distance_vec vessel0 behind) < 10 + Obstacle.radius behind /\
  obstacle_ang (obstacle_distance_vec vessel0 behind) = 1.
Proof.
  destruct (distance_vec_on_axis (-5) 1) as (Hx & Hy & Hn). fold behind in Hx, Hy, Hn.
  pose proof PI_RGT_0 as Hpi.
  split.
  - rewrite Hn. cbn [Obstacle.radius behind]. rewrite Rabs_left by lra. lra.
  - unfold obstacle_ang. rewrite Hx, Hy, arctan2_behind by lra.
    rewrite princip_inside by lra. field. lra.
Qed.

Lemma far_away_not_seen :
  10 + Obstacle.radius far_away <= norm3 (obstacle_distance_vec vessel0 far_away).
Proof.
  destruct (distance_vec_on_axis 50 1) as (Hx & Hy & Hn). fold far_away in Hx, Hy, Hn.
  rewrite Hn. cbn [Obstacle.radius far_away]. rewrite Rabs_pos_eq by lra. lra.
Qed.

(** [observe] in the scenario, for a list of obstacles. *)
Lemma observe_scenario (config : gmap string pynum)
    (obsts : list Obstacle.StaticObstacle) (r : R) :
  config !! "los_dist" = Some (PyFloat 10) ->
  config !! "obst_range" = Some (PyFloat 10) ->
  observe K0 (env config obsts r) =
    for_each obsts (observe_obstacle K0 10) (replicate 14 0) (env config obsts r).
Proof.
  intros Hlos Hrange.
  apply (observe_at_rest (env config obsts r) vessel0 obsts);
    first [ assumption | reflexivity ].
Qed.

Lemma scenario_not_terminated (config : gmap string pynum)
    (obsts : list Obstacle.StaticObstacle) (r : R) :
  ~ (r < -300) -> terminates (env config obsts r) straight vessel0 = false.
Proof.
  intros Hr. destruct straight_not_reached as [Hfar1 Hfar2].
  unfold terminates. change (position vessel0) with ((0, 0) : vec2). rewrite Hfar2.
  change (path_prog (env config obsts r)) with 0.
  change (reward (env config obsts r)) with r.
  rewrite (bool_decide_eq_false_2 _ Hfar1).
  rewrite (bool_decide_eq_false_2 (100 < 10)) by lra.
  rewrite (bool_decide_eq_false_2 _ Hr). reflexivity.
Qed.

End ScenarioFacts.

(** ** The claims on the scenario *)

Module ScenarioClaims.
Import Scenario ScenarioFacts.

(** C2, counterexample. From an accumulated reward of -299.5 the step has
    reward -0.75 and takes the accumulated reward to -300.25, below -300, yet
    returns [done = false]; it is the following step that returns
    [done = true]. *)
Lemma step_crossing_threshold_returns_not_done :
  exists self' obs r info,
    step K0 (0, 0) (env config0 [] (-299.5)) = (self', inr (obs, r, false, info)) /\
    ~ (reward (env config0 [] (-299.5)) < -300) /\
    reward (env config0 [] (-299.5)) + r < -300 /\
    reward self' < -300 /\
    exists self'' obs' r' info',
      step K0 (0, 0) self' = (self'', inr (obs', r', true, info')).
Proof.
  destruct (step_at_rest (env config0 [] (-299.5)) vessel0) as (r & Hstep & Hr);
    try reflexivity.
  cbn [reward env] in Hstep, Hr.
  rewrite (bool_decide_eq_false_2 (-299.5 < -300)) in Hstep, Hr by lra.
  eexists _, _, r, _. split; [exact Hstep|].
  cbn [reward env set_reward]. subst r.
  split; [lra|]. split; [lra|]. split; [lra|].
  match type of Hstep with _ = (?s, _) => set (self' := s) end.
  destruct (step_at_rest self' (AUV2D_step K0 vessel0 (0, 0))) as (r' & Hstep' & Hr');
    try reflexivity.
  { apply rest_step. reflexivity. }
  cbn [reward self' set_reward] in Hstep', Hr'.
  rewrite (bool_decide_eq_true_2 (-299.5 + -0.75 < -300)) in Hstep', Hr' by lra.
  eexists _, _, r', _. exact Hstep'.
Qed.

(** C2, witness: a step taken with the accumulated reward at -301. *)
Lemma step_done_from_previous_reward_witness :
  let self := env config0 [] (-301) in
  exists self' obs r done info,
    step K0 (0, 0) self = (self', inr (obs, r, done, info)) /\
    reward self < -300 /\
    done = true /\
    reward self' = reward self + r.
Proof.
  cbv zeta.
  destruct (step_at_rest (env config0 [] (-301)) vessel0) as (r & Hstep & Hr);
    try reflexivity.
  destruct (step_done_from_previous_reward K0 _ _ _ _ _ _ _ Hstep)
    as (Hsum & _ & Hdone).
  assert (Hlt : reward (env config0 [] (-301)) < -300) by (cbn; lra).
  eexists _, _, _, _, _. split; [exact Hstep|].
  split; [exact Hlt|]. split; [exact (Hdone Hlt)|exact Hsum].
Defined.

(** C3, witness: the reward of the vessel at rest, which does not terminate. *)
Lemma step_reward_terms_witness :
  let self := env config0 [] 0 in
  let obs := replicate 14 0 in
  exists done progress_term closeness_term error_terms,
    step_reward K0 obs 0 self =
      (self, inr (done, progress_term + closeness_term + error_terms)) /\
    done = terminates self straight vessel0 /\
    closeness_term = closeness_penalty (to_float (PyFloat (-1))) self obs /\
    (done = true -> progress_term = 0 /\ error_terms = 0) /\
    (done = false ->
     progress_term = 0 * to_float (PyFloat 1) /\
     error_terms =
       Rabs (nth 3 obs 0) * to_float (PyFloat (-1))
       + Rmax 0 (- (nth 0 obs 0 - to_float (PyFloat 1.5) / const.MAX_SPEED K0))
         * to_float (PyFloat (-1))).
Proof.
  cbv zeta.
  apply (step_reward_terms K0 (env config0 [] 0) (replicate 14 0) 0 straight vessel0
           (PyFloat 1) (PyFloat (-1)) (PyFloat 1.5) (PyFloat (-1)) (PyFloat (-1)));
    try reflexivity.
  - cbn. lia.
  - cbn. lra.
Defined.

(** C7, witness: two vessel objects in the same state, with different width,
    history and previous input, under the same two actions. *)
Lemma AUV2D_steps_deterministic_witness :
  _state vessel0 = _state vessel0_wide /\
  t_step vessel0 = t_step vessel0_wide /\
  _state (AUV2D_steps K0 vessel0 [(1, 0.5); (0, -1)])
  = _state (AUV2D_steps K0 vessel0_wide [(1, 0.5); (0, -1)]).
Proof.
  split; [reflexivity|]. split; [reflexivity|].
  apply (AUV2D_steps_deterministic K0 vessel0 vessel0_wide [(1, 0.5); (0, -1)]);
    reflexivity.
Defined.

(** C4, on the sources. An obstacle far outside the range contributes 0 to
    every channel, but with an obstacle within range [observe] raises
    AttributeError, reading [self.vessel.radius], and returns no observation
    whose channels could be within bounds. *)
Theorem observe_obstacle_within_range_raises :
  observe K0 (env config0 [far_away] 0)
    = (env config0 [far_away] 0, inr (replicate 14 0)) /\
  observe K0 (env config0 [far_away; ahead] 0)
    = (env config0 [far_away; ahead] 0, inl (AttributeError "AUV2D" "radius")).
Proof.
  destruct config0_lookup as (_ & _ & _ & _ & Hlos & Hrange & _).
  destruct ahead_seen as [Hnear Hang].
  split.
  - rewrite (observe_scenario config0 [far_away] 0 Hlos Hrange). cbn [for_each].
    erewrite bind_inr; [reflexivity|].
    apply (observe_obstacle_far K0 _ vessel0); [reflexivity|exact far_away_not_seen].
  - rewrite (observe_scenario config0 [far_away; ahead] 0 Hlos Hrange). cbn [for_each].
    erewrite bind_inr; cycle 1.
    { apply (observe_obstacle_far K0 _ vessel0); [reflexivity|exact far_away_not_seen]. }
    erewrite bind_inl; [reflexivity|].
    apply (observe_obstacle_near K0 _ vessel0); [reflexivity|exact Hnear|].
    rewrite Hang. lra.
Qed.

(** C5, witness: the obstacle straight ahead, 5 away, with range 10. *)
Lemma closeness_reads_missing_radius_witness :
  let self := env config0 [ahead] 0 in
  norm3 (obstacle_distance_vec vessel0 ahead) < 10 + Obstacle.radius ahead /\
  0 <= obstacle_ang (obstacle_distance_vec vessel0 ahead) < 1 /\
  observe_obstacle K0 10 (replicate 14 0) ahead self =
    (self, inl (AttributeError "AUV2D" "radius")).
Proof.
  cbv zeta. destruct ahead_seen as [Hnear Hang].
  assert (Hguard : 0 <= obstacle_ang (obstacle_distance_vec vessel0 ahead) < 1).
  { rewrite Hang. lra. }
  split; [exact Hnear|]. split; [exact Hguard|].
  apply (closeness_reads_missing_radius K0 (env config0 [ahead] 0) vessel0 10
           (replicate 14 0) ahead eq_refl Hnear Hguard).
Defined.

(** C8, counterexample. With [reward_ds] missing from the configuration, the
    construction does not raise an error naming [reward_ds], and the missing
    option surfaces in [step], as KeyError. *)
Lemma missing_reward_ds_surfaces_in_step :
  config_without_reward_ds !! "reward_ds" = None /\
  @AUVEnv_new K0 X0 config_without_reward_ds <> inl (KeyError "reward_ds") /\
  exists self',
    step K0 (0, 0) (env config_without_reward_ds [] 0)
      = (self', inl (KeyError "reward_ds")).
Proof.
  split; [reflexivity|]. split.
  { rewrite AUVEnv_new_raises. discriminate. }
  rewrite (step_unfold K0 (0, 0) (env config_without_reward_ds [] 0) vessel0 straight
             eq_refl eq_refl). cbv zeta.
  assert (Hs' : _state (AUV2D_step K0 vessel0 (0, 0)) = ((0, 0, 0), (0, 0, 0))).
  { apply rest_step. reflexivity. }
  assert (Hpos : position (AUV2D_step K0 vessel0 (0, 0)) = (0, 0)).
  { unfold position. rewrite Hs'. reflexivity. }
  change (Path.get_closest_arclength X0 straight
            (position (AUV2D_step K0 vessel0 (0, 0)))) with 0.
  set (self1 := set_path_prog 0 _).
  rewrite (observe_at_rest self1 (AUV2D_step K0 vessel0 (0, 0)) [])
    by (first [ assumption | reflexivity ]).
  cbn [for_each ret snd].
  destruct straight_not_reached as [Hfar1 Hfar2].
  assert (Hterm : terminates self1 straight (AUV2D_step K0 vessel0 (0, 0)) = false).
  { unfold terminates. rewrite Hpos, Hfar2.
    change (path_prog self1) with 0. change (reward self1) with 0.
    rewrite (bool_decide_eq_false_2 _ Hfar1).
    rewrite (bool_decide_eq_false_2 (100 < 10)) by lra.
    rewrite (bool_decide_eq_false_2 (0 < -300)) by lra. reflexivity. }
  destruct (step_reward_missing K0 self1 (replicate 14 0) (0 - 0) straight
              (AUV2D_step K0 vessel0 (0, 0))) as [Hrun _];
    try reflexivity.
  { cbn. lia. }
  { cbn. lia. }
  { cbn. lra. }
  change (path_prog (env config_without_reward_ds [] 0)) with 0.
  rewrite (Hrun "reward_ds" Hterm eq_refl). cbn [snd]. eauto.
Qed.

(** C8, witness: the configuration without [reward_ds], on a step that does
    not terminate. *)
Lemma missing_option_raises_where_read_witness :
  let self := env config_without_reward_ds [] 0 in
  path self = Some straight /\
  vessel self = Some vessel0 /\
  terminates self straight vessel0 = false /\
  first_missing (config self) reward_options = Some "reward_ds" /\
  step_reward K0 (replicate 14 0) 0 self = (self, inl (KeyError "reward_ds")).
Proof.
  cbv zeta.
  assert (Hterm : terminates (env config_without_reward_ds [] 0) straight vessel0
                  = false).
  { apply scenario_not_terminated. lra. }
  assert (H3 : (3 < nstates (env config_without_reward_ds [] 0))%nat) by (cbn; lia).
  assert (H0 : (0 < nsectors (env config_without_reward_ds [] 0))%nat) by (cbn; lia).
  assert (Hmax : const.MAX_SPEED K0 <> 0) by (cbn; lra).
  destruct (missing_option_raises_where_read K0 (env config_without_reward_ds [] 0)
              (replicate 14 0) 0 straight vessel0 eq_refl eq_refl H3 H0 eq_refl Hmax)
    as (_ & _ & Hrun & _).
  split; [reflexivity|]. split; [reflexivity|]. split; [exact Hterm|].
  split; [reflexivity|]. exact (Hrun "reward_ds" Hterm eq_refl).
Defined.

(** C10, witness: the obstacle straight behind the vessel has remapped
    bearing 1 and is skipped; the bearing 1/2 has a sector index in 6..13. *)
Lemma sector_index_guarded_witness :
  let self := env config0 [behind] 0 in
  let obs := replicate 14 0 in
  vessel self = Some vessel0 /\
  (0 < nsectors self)%nat /\
  List.length obs = (nstates self + nsectors self)%nat /\
  obstacle_ang (obstacle_distance_vec vessel0 behind) = 1 /\
  observe_obstacle K0 10 obs behind self = (self, inr obs) /\
  (6 <= obstacle_isector (nstates self) (nsectors self) (1 / 2) <= 13)%Z.
Proof.
  cbv zeta.
  assert (H0 : (0 < nsectors (env config0 [behind] 0))%nat) by (cbn; lia).
  destruct (sector_index_guarded K0 (env config0 [behind] 0) vessel0 10
              (replicate 14 0) behind eq_refl H0 eq_refl) as (Hidx & _ & Hskip).
  destruct behind_seen as [_ Hang].
  assert (Hhalf : 0 <= 1 / 2 < 1) by lra.
  destruct (Hidx (1 / 2) Hhalf) as (_ & Hslots & _).
  split; [reflexivity|]. split; [exact H0|]. split; [reflexivity|].
  split; [exact Hang|]. split; [exact (Hskip Hang)|].
  exact (Hslots eq_refl eq_refl).
Defined.

End ScenarioClaims.

(** ** More on the vessel *)

Section VesselFacts.
Variable K : const.t.

Lemma clip_idempotent (x lo hi : R) :
  lo <= hi -> clip (clip x lo hi) lo hi = clip x lo hi.
Proof. intros Hle. apply clip_inside. apply clip_bounds. exact Hle. Qed.

Lemma clip_below (x lo hi : R) : lo <= hi -> x <= lo -> clip x lo hi = lo.
Proof.
  intros Hle Hx. unfold clip, Rmin, Rmax. repeat destruct (Rle_dec _ _); lra.
Qed.

Lemma clip_above (x lo hi : R) : lo <= hi -> hi <= x -> clip x lo hi = hi.
Proof.
  intros Hle Hx. unfold clip, Rmin, Rmax. repeat destruct (Rle_dec _ _); lra.
Qed.

(** X1. The physical commands stay within the actuator limits whatever the
    action: the thrust between [THRUST_MIN_AUV] and [THRUST_MAX_AUV], reaching
    them for propeller inputs at or beyond 0 and 1, and the rudder angle
    between plus and minus [RUDDER_MAX_AUV], reaching them at or beyond -1
    and 1. *)
Theorem actuator_commands_within_limits (x : R) :
  const.THRUST_MIN_AUV K <= const.THRUST_MAX_AUV K ->
  0 <= const.RUDDER_MAX_AUV K ->
  (const.THRUST_MIN_AUV K <= _surge K x <= const.THRUST_MAX_AUV K) /\
  (- const.RUDDER_MAX_AUV K <= _steer K x <= const.RUDDER_MAX_AUV K) /\
  (x <= 0 -> _surge K x = const.THRUST_MIN_AUV K) /\
  (1 <= x -> _surge K x = const.THRUST_MAX_AUV K) /\
  (x <= -1 -> _steer K x = - const.RUDDER_MAX_AUV K) /\
  (1 <= x -> _steer K x = const.RUDDER_MAX_AUV K).
Proof.
  intros Hthrust Hrudder. unfold _surge, _steer. cbv zeta.
  pose proof (clip_bounds x 0 1) as Hs. pose proof (clip_bounds x (-1) 1) as Hr.
  repeat split; try nra.
  - intros Hx. rewrite clip_below by lra. lra.
  - intros Hx. rewrite clip_above by lra. lra.
  - intros Hx. rewrite clip_below by lra. lra.
  - intros Hx. rewrite clip_above by lra. lra.
Qed.

(** X2. [AUV2D.step] clamps its action: a step under any action is the
    step under the action clamped to [0, 1] x [-1, 1]. *)
Theorem AUV2D_step_clamps_action (self : AUV2D) (action : vec2) :
  AUV2D_step K self action
  = AUV2D_step K self (clip action.1 0 1, clip action.2 (-1) 1).
Proof.
  unfold AUV2D_step, _surge, _steer. cbn [fst snd].
  rewrite (clip_idempotent action.1 0 1) by lra.
  rewrite (clip_idempotent action.2 (-1) 1) by lra.
  reflexivity.
Qed.

Lemma AUV2D_step_history (self : AUV2D) (action : vec2) :
  let self' := AUV2D_step K self action in
  prev_states self' = prev_states self ++ [_state self'] /\
  prev_inputs self' = prev_inputs self ++ [input self'] /\
  input self' = (_surge K action.1, _steer K action.2) /\
  width self' = width self /\
  t_step self' = t_step self.
Proof.
  cbv zeta. unfold AUV2D_step, _sim. cbn [_state t_step input prev_states prev_inputs width].
  destruct (_state self) as [eta nu].
  destruct (vadd3 eta _) as [[x y] psi]. cbn. repeat split; reflexivity.
Qed.

(** X3. The history of a vessel is append-only: after a sequence of steps the
    earlier states and inputs are still there, in order, one state and one
    input have been added per step, the last entries are the current state and
    input, and the width and the timestep are as before. *)
Theorem AUV2D_steps_history (self : AUV2D) (actions : list vec2) :
  let self' := AUV2D_steps K self actions in
  (exists states inputs,
     prev_states self' = prev_states self ++ states /\
     prev_inputs self' = prev_inputs self ++ inputs /\
     List.length states = List.length actions /\
     List.length inputs = List.length actions /\
     (actions <> [] ->
      last states = Some (_state self') /\ last inputs = Some (input self'))) /\
  width self' = width self /\
  t_step self' = t_step self.
Proof.
  cbv zeta. unfold AUV2D_steps. revert self.
  induction actions as [|a actions IH]; intros self.
  - cbn [foldl]. split; [|tauto]. exists [], []. rewrite !app_nil_r.
    do 4 (split; [reflexivity|]). intros Hne. contradiction.
  - cbn [foldl].
    destruct (IH (AUV2D_step K self a)) as ((states & inputs & Hs & Hi & Hls & Hli & Hlast)
                                            & Hw & Ht).
    destruct (AUV2D_step_history self a) as (Hs1 & Hi1 & _ & Hw1 & Ht1).
    split; [|split; congruence].
    exists (_state (AUV2D_step K self a) :: states),
           (input (AUV2D_step K self a) :: inputs).
    rewrite Hs, Hi, Hs1, Hi1, <- !app_assoc. cbn [app List.length].
    repeat split; try congruence.
    + destruct actions as [|a' actions'].
      * destruct states; [reflexivity|discriminate].
      * destruct (Hlast ltac:(discriminate)) as [H1 _].
        destruct states as [|s0 states']; [discriminate|]. exact H1.
    + destruct actions as [|a' actions'].
      * destruct inputs; [reflexivity|discriminate].
      * destruct (Hlast ltac:(discriminate)) as [_ H2].
        destruct inputs as [|s0 inputs']; [discriminate|]. exact H2.
Qed.

(** X28. [heading_change] compares the last two recorded states: after a step
    of a vessel with a recorded state it is the wrapped difference between the
    new heading and the heading recorded last, while a vessel just built by
    [__init__], which has one recorded state only, reports its heading
    itself. *)
Theorem heading_change_last_two :
  (forall (self : AUV2D) (action : vec2) (s : vec3 * vec3),
     last (prev_states self) = Some s ->
     heading_change (AUV2D_step K self action)
     = geom.princip (heading (AUV2D_step K self action) - s.1.2)) /\
  (forall (t_step : R) (init_pos : vec3) (width : option R),
     heading_change (AUV2D__init__ t_step init_pos width) = init_pos.2).
Proof.
  split.
  - intros self action s Hlast.
    destruct (AUV2D_step_history self action) as (Hs & _).
    unfold heading_change, heading. cbv zeta. rewrite Hs.
    set (s' := _state (AUV2D_step K self action)).
    rewrite last_lookup in Hlast.
    assert (Hn : (1 <= List.length (prev_states self))%nat).
    { destruct (prev_states self); [discriminate|cbn; lia]. }
    rewrite length_app. cbn [List.length].
    destruct (decide _) as [_|Hno]; [|lia].
    rewrite !nth_lookup.
    rewrite (lookup_app_r (prev_states self) [s']) by lia.
    rewrite (lookup_app_l (prev_states self) [s']) by lia.
    replace (List.length (prev_states self) + 1 - 1 - List.length (prev_states self))%nat
      with 0%nat by lia.
    replace (List.length (prev_states self) + 1 - 2)%nat
      with (pred (List.length (prev_states self))) by lia.
    rewrite Hlast. reflexivity.
  - intros t_step init_pos width. reflexivity.
Qed.

(** X4. The integration is explicit: the pose advances with the velocity the
    vessel had before the step, so a vessel whose velocity is zero keeps its
    position in that step, whatever the action. *)
Theorem AUV2D_step_from_rest_keeps_position (self : AUV2D) (action : vec2) :
  (_state self).2 = (0, 0, 0) ->
  position (AUV2D_step K self action) = position self.
Proof.
  intros Hnu. unfold AUV2D_step, _sim, position. cbn [_state t_step input].
  destruct (_state self) as [[[x y] psi] nu]. cbn [fst snd] in *. subst nu.
  cbn [fst snd vadd3 vscale3 dot3 row_dot3 geom.Rzyx _state].
  f_equal; ring.
Qed.

Lemma steer_bound (x : R) :
  0 <= const.RUDDER_MAX_AUV K ->
  - const.RUDDER_MAX_AUV K <= _steer K x <= const.RUDDER_MAX_AUV K.
Proof.
  intros Hrudder. unfold _steer. cbv zeta.
  pose proof (clip_bounds x (-1) 1) as Hr. nra.
Qed.

Lemma foldl_sum_bound (f : nat -> R) (B : R) (l : list nat) (acc : R) :
  (forall i, In i l -> - B <= f i <= B) ->
  acc - INR (List.length l) * B
  <= foldl (fun a i => a + f i) acc l
  <= acc + INR (List.length l) * B.
Proof.
  revert acc. induction l as [|i l IH]; intros acc Hf.
  - cbn. lra.
  - cbn [foldl]. change (List.length (i :: l)) with (S (List.length l)).
    rewrite S_INR.
    specialize (IH (acc + f i) (fun j Hj => Hf j (or_intror Hj))).
    pose proof (Hf i (or_introl eq_refl)) as Hi. lra.
Qed.

(** The rudder commands in the history of a vessel built by [__init__] and
    stepped are within the rudder limits, and the history is not empty. *)
Lemma prev_inputs_bounded (t_step : R) (init_pos : vec3) (width : option R)
    (actions : list vec2) :
  0 <= const.RUDDER_MAX_AUV K ->
  let self := AUV2D_steps K (AUV2D__init__ t_step init_pos width) actions in
  prev_inputs self <> [] /\
  Forall (fun u : vec2 => - const.RUDDER_MAX_AUV K <= u.2 <= const.RUDDER_MAX_AUV K)
         (prev_inputs self).
Proof.
  intros Hrudder. cbv zeta. unfold AUV2D_steps.
  assert (Hinit : prev_inputs (AUV2D__init__ t_step init_pos width) <> [] /\
                  Forall (fun u : vec2 => - const.RUDDER_MAX_AUV K <= u.2
                                          <= const.RUDDER_MAX_AUV K)
                         (prev_inputs (AUV2D__init__ t_step init_pos width))).
  { cbn. split; [discriminate|]. constructor; [cbn; lra|constructor]. }
  revert Hinit. generalize (AUV2D__init__ t_step init_pos width).
  induction actions as [|a actions IH]; intros self Hself; [exact Hself|].
  cbn [foldl]. apply IH.
  destruct (AUV2D_step_history self a) as (_ & Hi & Hin & _).
  rewrite Hi. destruct Hself as [Hne Hall]. split.
  - destruct (prev_inputs self); discriminate.
  - apply Forall_app. split; [exact Hall|].
    constructor; [|constructor]. rewrite Hin. cbn [snd]. apply steer_bound. exact Hrudder.
Qed.

(** X5. [rudder_change] divides by the number of samples: it raises
    ZeroDivisionError for a vessel without recorded inputs, and for a vessel
    built by [__init__] and stepped any number of times it returns a value
    within the rudder limits. *)
Theorem rudder_change_defined_and_bounded :
  (forall self : AUV2D,
     prev_inputs self = [] -> rudder_change self = inl ZeroDivisionError) /\
  (0 <= const.RUDDER_MAX_AUV K ->
   forall (t_step : R) (init_pos : vec3) (width : option R) (actions : list vec2),
   exists x,
     rudder_change (AUV2D_steps K (AUV2D__init__ t_step init_pos width) actions) = inr x /\
     - const.RUDDER_MAX_AUV K <= x <= const.RUDDER_MAX_AUV K).
Proof.
  split.
  - intros self Hempty. unfold rudder_change. rewrite Hempty. cbn.
    unfold py_div. destruct (decide (0 = 0)) as [_|Hn]; [reflexivity|lra].
  - intros Hrudder t_step init_pos width actions.
    destruct (prev_inputs_bounded t_step init_pos width actions Hrudder) as [Hne Hall].
    set (self := AUV2D_steps K _ actions) in *.
    unfold rudder_change. cbv zeta.
    set (n := Nat.min 10 (List.length (prev_inputs self))).
    assert (Hn : (0 < n)%nat).
    { subst n. destruct (prev_inputs self); [congruence|cbn; lia]. }
    assert (Hnle : (n <= List.length (prev_inputs self))%nat) by (subst n; lia).
    pose proof (foldl_sum_bound
                  (fun i => (nth (List.length (prev_inputs self) - 1 - i)
                               (prev_inputs self) (0, 0)).2)
                  (const.RUDDER_MAX_AUV K) (seq 0 n) 0) as Hsum.
    rewrite length_seq in Hsum.
    assert (Hterms : forall i, In i (seq 0 n) ->
              - const.RUDDER_MAX_AUV K
              <= (nth (List.length (prev_inputs self) - 1 - i) (prev_inputs self) (0, 0)).2
              <= const.RUDDER_MAX_AUV K).
    { intros i Hi. apply in_seq in Hi.
      rewrite Forall_forall in Hall. apply Hall. apply list_elem_of_In.
      apply nth_In. lia. }
    specialize (Hsum Hterms).
    assert (Hpos : 0 < INR n) by (apply lt_0_INR; exact Hn).
    unfold py_div. destruct (decide (INR n = 0)) as [H0|_]; [lra|].
    eexists. split; [reflexivity|].
    split.
    + apply (Rmult_le_reg_r (INR n)); [exact Hpos|].
      unfold Rdiv. rewrite Rmult_assoc, Rinv_l by lra. lra.
    + apply (Rmult_le_reg_r (INR n)); [exact Hpos|].
      unfold Rdiv. rewrite Rmult_assoc, Rinv_l by lra. lra.
Qed.

End VesselFacts.

(** ** More on the path *)

Section PathFacts.

Lemma norm2_nonneg (v : vec2) : 0 <= norm2 v.
Proof. unfold norm2. apply sqrt_pos. Qed.

Lemma cumsum_from_length (acc : R) (l : list R) :
  List.length (Path.cumsum_from acc l) = List.length l.
Proof. revert acc. induction l as [|x l IH]; intros acc; cbn; [reflexivity|]. rewrite IH. reflexivity. Qed.

Lemma diff_length (coords : list vec2) :
  List.length (Path.diff coords) = (List.length coords - 1)%nat.
Proof.
  induction coords as [|a [|b rest] IH]; cbn in *; try reflexivity.
  rewrite IH. lia.
Qed.

Lemma diff_nth (coords : list vec2) (i : nat) :
  (S i < List.length coords)%nat ->
  nth i (Path.diff coords) (0, 0) = vsub2 (nth (S i) coords (0, 0)) (nth i coords (0, 0)).
Proof.
  revert i. induction coords as [|a [|b rest] IH]; intros i Hi; cbn in Hi; try lia.
  destruct i as [|i].
  - reflexivity.
  - change (Path.diff (a :: b :: rest)) with (vsub2 b a :: Path.diff (b :: rest)).
    cbn [nth]. apply IH. cbn. lia.
Qed.

Lemma nth_fmap_lt {A B : Type} (f : A -> B) (l : list A) (i : nat) (d : B) (d' : A) :
  (i < List.length l)%nat -> nth i (f <$> l) d = f (nth i l d').
Proof.
  revert i. induction l as [|x l IH]; intros i Hi; cbn in Hi; [lia|].
  destruct i as [|i]; [reflexivity|]. cbn. apply IH. lia.
Qed.

(** The running sums: each entry is the previous one plus the next term. *)
Lemma cumsum_from_nth (l : list R) (acc : R) (i : nat) :
  (i < List.length l)%nat ->
  nth i (Path.cumsum_from acc l) 0
  = nth i (acc :: Path.cumsum_from acc l) 0 + nth i l 0.
Proof.
  revert acc i. induction l as [|x l IH]; intros acc i Hi; cbn in Hi; [lia|].
  destruct i as [|i].
  - reflexivity.
  - cbn [Path.cumsum_from nth]. rewrite IH by lia. reflexivity.
Qed.

Lemma arc_len_step (coords : list vec2) (i : nat) :
  (S i < List.length coords)%nat ->
  nth (S i) (Path.arc_len coords) 0
  = nth i (Path.arc_len coords) 0
    + norm2 (vsub2 (nth (S i) coords (0, 0)) (nth i coords (0, 0))).
Proof.
  intros Hi. unfold Path.arc_len. cbv zeta. cbn [nth].
  rewrite cumsum_from_nth by (rewrite length_fmap, diff_length; lia).
  f_equal.
  rewrite (nth_fmap_lt norm2 (Path.diff coords) i 0 (0, 0))
    by (rewrite diff_length; lia).
  rewrite (diff_nth coords i Hi). reflexivity.
Qed.

Lemma arc_len_monotone (coords : list vec2) (i j : nat) :
  (i <= j < List.length coords)%nat ->
  nth i (Path.arc_len coords) 0 <= nth j (Path.arc_len coords) 0.
Proof.
  intros [Hij Hj]. induction Hij as [|j Hij IH]; [lra|].
  rewrite arc_len_step by lia. specialize (IH ltac:(lia)).
  pose proof (norm2_nonneg (vsub2 (nth (S j) coords (0, 0)) (nth j coords (0, 0)))).
  lra.
Qed.

Lemma arc_len_length (coords : list vec2) :
  List.length (Path.arc_len coords) = Nat.max 1 (List.length coords).
Proof.
  unfold Path.arc_len. cbv zeta. cbn [List.length].
  rewrite cumsum_from_length, length_fmap, diff_length. lia.
Qed.

(** X6. [arc_len] returns one arc length per waypoint (and the single arc
    length 0 when there is no waypoint), starting at 0; each arc length is
    the previous one plus the distance between the two waypoints, so the arc
    lengths never decrease. *)
Theorem arc_len_cumulative (coords : list vec2) :
  List.length (Path.arc_len coords) = Nat.max 1 (List.length coords) /\
  nth 0 (Path.arc_len coords) 0 = 0 /\
  (forall i, (S i < List.length coords)%nat ->
     nth (S i) (Path.arc_len coords) 0
     = nth i (Path.arc_len coords) 0
       + norm2 (vsub2 (nth (S i) coords (0, 0)) (nth i coords (0, 0)))) /\
  (forall i j, (i <= j < List.length coords)%nat ->
     nth i (Path.arc_len coords) 0 <= nth j (Path.arc_len coords) 0).
Proof.
  split; [apply arc_len_length|]. split; [reflexivity|]. split.
  - intros i Hi. apply arc_len_step. exact Hi.
  - intros i j Hij. apply arc_len_monotone. exact Hij.
Qed.

Lemma norm2_triangle (u v : vec2) : norm2 (vadd2 u v) <= norm2 u + norm2 v.
Proof.
  destruct u as [u1 u2], v as [v1 v2]. unfold norm2, vadd2. cbn [fst snd].
  set (U := u1 * u1 + u2 * u2). set (V := v1 * v1 + v2 * v2).
  assert (HU : 0 <= U) by (subst U; nra).
  assert (HV : 0 <= V) by (subst V; nra).
  pose proof (sqrt_pos U) as Hsu. pose proof (sqrt_pos V) as Hsv.
  pose proof (sqrt_sqrt U HU) as HsU. pose proof (sqrt_sqrt V HV) as HsV.
  set (su := sqrt U) in *. set (sv := sqrt V) in *.
  assert (Hcs : (u1 * v1 + u2 * v2) * (u1 * v1 + u2 * v2) <= (su * sv) * (su * sv)).
  { replace (su * sv * (su * sv)) with ((su * su) * (sv * sv)) by ring.
    rewrite HsU, HsV. subst U V.
    replace ((u1 * u1 + u2 * u2) * (v1 * v1 + v2 * v2))
      with ((u1 * v1 + u2 * v2) * (u1 * v1 + u2 * v2)
            + (u1 * v2 - u2 * v1) * (u1 * v2 - u2 * v1)) by ring.
    pose proof (Rle_0_sqr (u1 * v2 - u2 * v1)) as Hsq. unfold Rsqr in Hsq. lra. }
  assert (Hdot : u1 * v1 + u2 * v2 <= su * sv).
  { destruct (Rle_lt_dec (u1 * v1 + u2 * v2) (su * sv)) as [Hle|Hgt]; [exact Hle|].
    assert (Hnn : 0 <= su * sv) by nra.
    set (d := u1 * v1 + u2 * v2) in *.
    assert (su * sv * (su * sv) < d * d) by (apply Rmult_le_0_lt_compat; lra).
    lra. }
  replace (su + sv) with (sqrt ((su + sv) * (su + sv))) by (apply sqrt_square; lra).
  apply sqrt_le_1_alt.
  replace ((su + sv) * (su + sv)) with (su * su + sv * sv + 2 * (su * sv)) by ring.
  rewrite HsU, HsV. subst U V.
  replace ((u1 + v1) * (u1 + v1) + (u2 + v2) * (u2 + v2))
    with (u1 * u1 + u2 * u2 + (v1 * v1 + v2 * v2) + 2 * (u1 * v1 + u2 * v2)) by ring.
  lra.
Qed.

Lemma norm2_triangle_points (a b c : vec2) :
  norm2 (vsub2 c a) <= norm2 (vsub2 b a) + norm2 (vsub2 c b).
Proof.
  replace (vsub2 c a) with (vadd2 (vsub2 b a) (vsub2 c b)).
  - apply norm2_triangle.
  - destruct a, b, c. unfold vadd2, vsub2. cbn [fst snd]. f_equal; ring.
Qed.

(** X7. The arc length between two waypoints is at least their
    straight-line distance; in particular the total arc length is at least
    the distance from the first waypoint to the last. *)
Theorem arc_len_at_least_chord (coords : list vec2) (i j : nat) :
  (i <= j < List.length coords)%nat ->
  norm2 (vsub2 (nth j coords (0, 0)) (nth i coords (0, 0)))
  <= nth j (Path.arc_len coords) 0 - nth i (Path.arc_len coords) 0.
Proof.
  intros [Hij Hj]. induction Hij as [|j Hij IH].
  - replace (vsub2 (nth i coords (0, 0)) (nth i coords (0, 0))) with ((0, 0) : vec2).
    + unfold norm2. cbn. replace (0 * 0 + 0 * 0) with 0 by ring. rewrite sqrt_0. lra.
    + unfold vsub2. f_equal; ring.
  - specialize (IH ltac:(lia)).
    rewrite (arc_len_step coords j) by lia.
    pose proof (norm2_triangle_points (nth i coords (0, 0)) (nth j coords (0, 0))
                  (nth (S j) coords (0, 0))) as Htri.
    lra.
Qed.






(** X10. [reversed(curve)] runs the positions backwards, and reversing twice
    gives the positions back; the copy keeps the original's derivatives and
    path points, so the direction it reports at an arc length is the
    original's direction there, not the reversed one. *)
Theorem reversed_positions_only (curve : Path.ParamCurve) :
  (forall s, Path.call (PathOps.reversed curve) s
             = Path.call curve (Path.length curve - s)) /\
  (forall s, Path.call (PathOps.reversed (PathOps.reversed curve)) s
             = Path.call curve s) /\
  (forall s, Path.get_direction (PathOps.reversed curve) s
             = Path.get_direction curve s) /\
  Path.length (PathOps.reversed curve) = Path.length curve /\
  Path.path_points (PathOps.reversed curve) = Path.path_points curve /\
  (Path.s_max curve = Path.length curve ->
   Path.get_endpoint (PathOps.reversed curve) = Path.call curve 0).
Proof.
  split; [reflexivity|]. split.
  { intros s. unfold Path.call, PathOps.reversed. cbn. f_equal. ring. }
  split; [reflexivity|]. split; [reflexivity|]. split; [reflexivity|].
  intros Hmax. unfold Path.get_endpoint, Path.call, PathOps.reversed. cbn.
  rewrite Hmax. f_equal. ring.
Qed.




End PathFacts.

(** ** More on the environment *)

Section EnvFacts.
Context (K : const.t) {X : lib.t}.

(** X11. [observe] and [step_reward] only read the environment: whatever
    they return or raise, every attribute of the object is as before. *)
Theorem observe_and_step_reward_read_only (self : @AUVEnv X) :
  (observe K self).1 = self /\
  (forall obs delta_path_prog, (step_reward K obs delta_path_prog self).1 = self).
Proof.
  split.
  - apply readonly_observe.
  - intros obs delta_path_prog. apply readonly_step_reward.
Qed.

Lemma bind_lift {A B : Type} (r : Result A) (k : A -> @M X B) (self : @AUVEnv X) :
  bind (lift r) k self
  = match r with inl err => (self, inl err) | inr x => k x self end.
Proof. unfold bind, lift. destruct r; reflexivity. Qed.

Lemma setitem_length (a a' : list R) (i : Z) (x : R) :
  setitem a i x = inr a' -> List.length a' = List.length a.
Proof.
  unfold setitem. destruct (norm_index _ _); [|discriminate].
  intros H; inversion H; subst. apply length_insert.
Qed.

Lemma setitem_beyond (a : list R) (i : nat) (x : R) :
  (List.length a <= i)%nat -> setitem a (Z.of_nat i) x = inl (IndexError (Z.of_nat i)).
Proof.
  intros Hi. unfold setitem, norm_index.
  destruct (decide (Z.of_nat i < 0)%Z); [lia|].
  destruct (decide (0 <= Z.of_nat i < Z.of_nat (List.length a))%Z); [lia|reflexivity].
Qed.

(** When [observe] returns, the vector has [nstates + nsectors] entries. *)
Lemma observe_length (self self' : @AUVEnv X) (obs : list R) :
  observe K self = (self', inr obs) ->
  List.length obs = (nstates self + nsectors self)%nat.
Proof.
  unfold observe.
  destruct (config self !! "los_dist") as [ld|] eqn:Hld; cycle 1.
  { erewrite bind_inl by (apply config_get_None; eassumption). discriminate. }
  mstep.
  destruct (config self !! "obst_range") as [orange|] eqn:Hor; cycle 1.
  { erewrite bind_inl by (apply config_get_None; eassumption). discriminate. }
  do 2 mstep.
  destruct (path self) as [p|] eqn:Hp; cycle 1.
  { erewrite bind_inl by (apply attr_of_None; eassumption). discriminate. }
  mstep.
  destruct (vessel self) as [v|] eqn:Hv; cycle 1.
  { erewrite bind_inl by (apply attr_of_None; eassumption). discriminate. }
  mstep.
  rewrite bind_lift. destruct (setitem _ 0 _) as [err|o0] eqn:E0; [discriminate|].
  rewrite bind_lift. destruct (setitem _ 1 _) as [err|o1] eqn:E1; [discriminate|].
  rewrite bind_lift. destruct (setitem _ 2 _) as [err|o2] eqn:E2; [discriminate|].
  rewrite bind_lift. destruct (setitem _ 3 _) as [err|o3] eqn:E3; [discriminate|].
  destruct (last_action self) as [a|]; [|discriminate].
  rewrite bind_lift. destruct (setitem _ 4 _) as [err|o4] eqn:E4; [discriminate|].
  rewrite bind_lift. destruct (setitem _ 5 _) as [err|o5] eqn:E5; [discriminate|].
  destruct (obstacles self) as [obsts|]; [|discriminate].
  intros Hloop. apply observe_obstacles_return in Hloop. subst obs.
  apply setitem_length in E0, E1, E2, E3, E4, E5.
  rewrite length_replicate in E0. congruence.
Qed.

(** An observation returned by [observe] has at least six entries. *)
Lemma observe_at_least_six (self self' : @AUVEnv X) (obs : list R) :
  observe K self = (self', inr obs) ->
  List.length obs = (nstates self + nsectors self)%nat /\
  (6 <= nstates self + nsectors self)%nat.
Proof.
  intros Hobs. pose proof (observe_length _ _ _ Hobs) as Hlen. split; [exact Hlen|].
  revert Hobs. unfold observe.
  destruct (config self !! "los_dist") as [ld|] eqn:Hld; cycle 1.
  { erewrite bind_inl by (apply config_get_None; eassumption). discriminate. }
  mstep.
  destruct (config self !! "obst_range") as [orange|] eqn:Hor; cycle 1.
  { erewrite bind_inl by (apply config_get_None; eassumption). discriminate. }
  do 2 mstep.
  destruct (path self) as [p|] eqn:Hp; cycle 1.
  { erewrite bind_inl by (apply attr_of_None; eassumption). discriminate. }
  mstep.
  destruct (vessel self) as [v|] eqn:Hv; cycle 1.
  { erewrite bind_inl by (apply attr_of_None; eassumption). discriminate. }
  mstep.
  rewrite bind_lift. destruct (setitem _ 0 _) as [err|o0] eqn:E0; [discriminate|].
  rewrite bind_lift. destruct (setitem _ 1 _) as [err|o1] eqn:E1; [discriminate|].
  rewrite bind_lift. destruct (setitem _ 2 _) as [err|o2] eqn:E2; [discriminate|].
  rewrite bind_lift. destruct (setitem _ 3 _) as [err|o3] eqn:E3; [discriminate|].
  destruct (last_action self) as [a|]; [|discriminate].
  rewrite bind_lift. destruct (setitem _ 4 _) as [err|o4] eqn:E4; [discriminate|].
  rewrite bind_lift. destruct (setitem _ 5 _) as [err|o5] eqn:E5; [discriminate|].
  intros _.
  destruct (le_lt_dec 6 (nstates self + nsectors self)) as [Hle|Hlt]; [exact Hle|].
  exfalso.
  apply setitem_length in E0, E1, E2, E3, E4.
  rewrite length_replicate in E0.
  rewrite (setitem_beyond o4 5) in E5 by lia. discriminate.
Qed.

(** X12. The observation has six state channels: when [observe] returns, the
    vector has [nstates + nsectors] entries, and when [nstates + nsectors] is
    less than 6, [observe] raises IndexError at the first state channel
    that does not fit. *)
Theorem observe_needs_six_channels (self : @AUVEnv X) :
  (forall self' obs,
     observe K self = (self', inr obs) ->
     List.length obs = (nstates self + nsectors self)%nat /\
     (6 <= nstates self + nsectors self)%nat) /\
  ((nstates self + nsectors self < 6)%nat ->
   is_Some (config self !! "los_dist") ->
   is_Some (config self !! "obst_range") ->
   is_Some (path self) ->
   is_Some (vessel self) ->
   is_Some (last_action self) ->
   observe K self
   = (self, inl (IndexError (Z.of_nat (nstates self + nsectors self))))).
Proof.
  assert (Hsmall : (nstates self + nsectors self < 6)%nat ->
     is_Some (config self !! "los_dist") ->
     is_Some (config self !! "obst_range") ->
     is_Some (path self) ->
     is_Some (vessel self) ->
     is_Some (last_action self) ->
     observe K self
     = (self, inl (IndexError (Z.of_nat (nstates self + nsectors self))))).
  { intros Hlt [ld Hld] [orange Hor] [p Hp] [v Hv] [a Ha].
    unfold observe. do 5 mstep. rewrite Ha.
    destruct (nstates self + nsectors self)%nat as [|[|[|[|[|[|n]]]]]] eqn:Hn; try lia.
    - rewrite bind_lift. reflexivity.
    - set_item 0%nat. rewrite bind_lift. reflexivity.
    - set_item 0%nat. set_item 1%nat. rewrite bind_lift. reflexivity.
    - set_item 0%nat. set_item 1%nat. set_item 2%nat. rewrite bind_lift. reflexivity.
    - set_item 0%nat. set_item 1%nat. set_item 2%nat. set_item 3%nat.
      rewrite bind_lift. reflexivity.
    - set_item 0%nat. set_item 1%nat. set_item 2%nat. set_item 3%nat. set_item 4%nat.
      rewrite bind_lift. reflexivity. }
  split; [|exact Hsmall].
  intros self' obs Hobs. split; [exact (observe_length _ _ _ Hobs)|].
  destruct (le_lt_dec 6 (nstates self + nsectors self)) as [Hle|Hlt]; [exact Hle|].
  exfalso. revert Hobs. unfold observe.
  destruct (config self !! "los_dist") as [ld|] eqn:Hld; cycle 1.
  { erewrite bind_inl by (apply config_get_None; eassumption). discriminate. }
  destruct (config self !! "obst_range") as [orange|] eqn:Hor; cycle 1.
  { mstep. erewrite bind_inl by (apply config_get_None; eassumption). discriminate. }
  destruct (path self) as [p|] eqn:Hp; cycle 1.
  { do 3 mstep. erewrite bind_inl by (apply attr_of_None; eassumption). discriminate. }
  destruct (vessel self) as [v|] eqn:Hv; cycle 1.
  { do 4 mstep. erewrite bind_inl by (apply attr_of_None; eassumption). discriminate. }
  destruct (last_action self) as [a|] eqn:Ha.
  - fold (observe K self). rewrite Hsmall; eauto. discriminate.
  - do 5 mstep. rewrite Ha.
    destruct (nstates self + nsectors self)%nat as [|[|[|[|[|[|n]]]]]] eqn:Hn; try lia.
    + rewrite bind_lift. discriminate.
    + set_item 0%nat. rewrite bind_lift. discriminate.
    + set_item 0%nat. set_item 1%nat. rewrite bind_lift. discriminate.
    + set_item 0%nat. set_item 1%nat. set_item 2%nat. rewrite bind_lift. discriminate.
    + set_item 0%nat. set_item 1%nat. set_item 2%nat. set_item 3%nat. discriminate.
    + set_item 0%nat. set_item 1%nat. set_item 2%nat. set_item 3%nat. discriminate.
Qed.



(** X14. [step] advances the environment before it observes: whether it then
    returns or raises, the last action is the action given, the vessel has
    taken its step and the progress is the closest arc length to the new
    position; when it raises, the accumulated reward is as before. *)
Theorem step_advances_before_observing (action : vec2) (self : @AUVEnv X)
    (v : AUV2D) (p : Path.ParamCurve) :
  vessel self = Some v ->
  path self = Some p ->
  let self' := (step K action self).1 in
  last_action self' = Some action /\
  vessel self' = Some (AUV2D_step K v action) /\
  path_prog self'
  = Path.get_closest_arclength X p (position (AUV2D_step K v action)) /\
  (forall err, (step K action self).2 = inl err -> reward self' = reward self).
Proof.
  intros Hv Hp. cbv zeta. rewrite (step_unfold K action self v p Hv Hp). cbv zeta.
  destruct (observe K _).2 as [err|obs].
  { cbn. repeat split; reflexivity. }
  destruct (step_reward K _ _ _).2 as [err|[done r]].
  { cbn. repeat split; reflexivity. }
  cbn. repeat split; try reflexivity. intros err Herr. discriminate.
Qed.

(** X15. Without a vessel [step] raises AttributeError having stored the
    action; with a vessel and without a path it raises AttributeError after
    the vessel has taken its step. *)
Theorem step_without_vessel_or_path (action : vec2) (self : @AUVEnv X) :
  (vessel self = None ->
   step K action self
   = (set_last_action (Some action) self, inl (AttributeError "NoneType" "step"))) /\
  (forall v,
     vessel self = Some v ->
     path self = None ->
     step K action self
     = (set_vessel (Some (AUV2D_step K v action)) (set_last_action (Some action) self),
        inl (AttributeError "NoneType" "get_closest_arclength"))).
Proof.
  split.
  - intros Hv. unfold step. erewrite bind_inr by reflexivity.
    erewrite bind_inl; [reflexivity|]. apply attr_of_None. exact Hv.
  - intros v Hv Hp. unfold step. erewrite bind_inr by reflexivity.
    erewrite bind_inr by (apply attr_of_Some; exact Hv).
    erewrite bind_inr by reflexivity.
    erewrite bind_inl; [reflexivity|]. apply attr_of_None. exact Hp.
Qed.

Lemma sum_R_nonpos (l : list R) : Forall (fun x => x <= 0) l -> sum_R l <= 0.
Proof.
  unfold sum_R. induction 1 as [|x l Hx Hl IH]; cbn; [lra|]. lra.
Qed.

Lemma closeness_penalty_nonpos (w : R) (self : @AUVEnv X) (obs : list R) :
  w <= 0 -> closeness_penalty w self obs <= 0.
Proof.
  intros Hw. unfold closeness_penalty. apply sum_R_nonpos.
  apply Forall_fmap. apply Forall_forall. intros sector _. cbn.
  pose proof (pow2_ge_0 (nth (nstates self + sector) obs 0)). nra.
Qed.

(** X16. With closeness, cross-track and surge weights that are not positive,
    the progress term is the only one that can raise the reward: a step that
    does not terminate has reward at most [delta_path_prog * reward_ds], and a
    step that terminates has reward at most 0. *)
Theorem step_reward_at_most_progress (self : @AUVEnv X) (obs : list R)
    (delta_path_prog : R) (p : Path.ParamCurve) (v : AUV2D)
    (reward_ds reward_closeness cruise_speed reward_cross_track_error
       reward_surge_error : pynum) :
  path self = Some p ->
  vessel self = Some v ->
  (3 < nstates self)%nat ->
  List.length obs = (nstates self + nsectors self)%nat ->
  const.MAX_SPEED K <> 0 ->
  config self !! "reward_ds" = Some reward_ds ->
  config self !! "reward_closeness" = Some reward_closeness ->
  config self !! "cruise_speed" = Some cruise_speed ->
  config self !! "reward_cross_track_error" = Some reward_cross_track_error ->
  config self !! "reward_surge_error" = Some reward_surge_error ->
  to_float reward_closeness <= 0 ->
  to_float reward_cross_track_error <= 0 ->
  to_float reward_surge_error <= 0 ->
  exists done r,
    step_reward K obs delta_path_prog self = (self, inr (done, r)) /\
    (done = true -> r <= 0) /\
    (done = false -> r <= delta_path_prog * to_float reward_ds).
Proof.
  intros Hp Hv Hns Hlen Hmax Hds Hcl Hcs Hcte Hse Hwcl Hwcte Hwse.
  pose proof (step_reward_eval K self obs delta_path_prog p v _ _ _ _ _
                Hp Hv Hns Hlen Hmax Hds Hcl Hcs Hcte Hse) as Heval.
  cbv zeta in Heval.
  pose proof (closeness_penalty_nonpos (to_float reward_closeness) self obs Hwcl) as Hpen.
  eexists _, _. split; [exact Heval|].
  destruct (terminates self p v); split; intros Hd; try discriminate.
  - lra.
  - pose proof (Rabs_pos (nth 3 obs 0)) as Habs.
    pose proof (Rmax_l 0 (- (nth 0 obs 0 - to_float cruise_speed / const.MAX_SPEED K)))
      as Hmaxl.
    nra.
Qed.

Lemma np_random_rand_Some (self : @AUVEnv X) (g : lib.RandomState X) :
  np_random self = Some g ->
  np_random_rand self
  = (set_np_random (Some (lib.rand X g).2) self, inr (lib.rand X g).1).
Proof.
  intros Hg. unfold np_random_rand.
  erewrite bind_inr by (apply attr_of_Some; exact Hg).
  destruct (lib.rand X g) as [x g']. reflexivity.
Qed.

Lemma generate_obstacle_run (self : @AUVEnv X) (p : Path.ParamCurve)
    (g : lib.RandomState X) (obsts : list Obstacle.StaticObstacle) (i : nat) :
  (forall g, 0 <= (lib.rand X g).1 < 1) ->
  0 <= Path.length p ->
  path self = Some p ->
  np_random self = Some g ->
  obstacles self = Some obsts ->
  exists obst g',
    generate_obstacle tt i self
    = (set_obstacles (Some (obsts ++ [obst])) (set_np_random (Some g') self), inr tt) /\
    well_placed p obst.
Proof.
  intros Hrand Hlen Hp Hg Hobsts. unfold generate_obstacle.
  erewrite bind_inr by (apply attr_of_Some; exact Hp).
  erewrite bind_inr by (apply np_random_rand_Some; exact Hg).
  pose proof (Hrand g) as Hr1. destruct (lib.rand X g) as [r1 g1]. cbn [fst snd] in *.
  erewrite bind_inr by (apply np_random_rand_Some; reflexivity).
  pose proof (Hrand g1) as Hr2. destruct (lib.rand X g1) as [r2 g2]. cbn [fst snd] in *.
  erewrite bind_inr by (apply np_random_rand_Some; reflexivity).
  pose proof (Hrand g2) as Hr3. destruct (lib.rand X g2) as [r3 g3]. cbn [fst snd] in *.
  erewrite bind_inr by (apply np_random_rand_Some; reflexivity).
  pose proof (Hrand g3) as Hr4. destruct (lib.rand X g3) as [r4 g4]. cbn [fst snd] in *.
  erewrite bind_inr by (apply attr_of_Some; exact Hobsts).
  eexists _, g4. split; [reflexivity|].
  unfold well_placed. cbn [Obstacle.radius Obstacle.position vadd2 fst snd].
  split; [lra|].
  exists (0.9 * Path.length p * (r1 + 0.1)). split; [nra|].
  split; apply Rabs_le; lra.
Qed.

(** X17. The loop of [generate] over [range(nobstacles)], run on an
    environment that has a path, a generator drawing from [0, 1) and a list of
    obstacles, appends exactly [nobstacles] obstacles after the ones already
    there; each has a radius in [5, 15) and lies within 12.5 along each axis
    of a point of the path between 9% and 99% of its length.  The path, the
    vessel and the configuration are left as they are. *)
Theorem generate_obstacles_placed (n : nat) (self : @AUVEnv X) (p : Path.ParamCurve)
    (g : lib.RandomState X) (obsts : list Obstacle.StaticObstacle) (i : nat) :
  (forall g, 0 <= (lib.rand X g).1 < 1) ->
  0 <= Path.length p ->
  path self = Some p ->
  np_random self = Some g ->
  obstacles self = Some obsts ->
  exists self' new,
    for_each (seq i n) generate_obstacle tt self = (self', inr tt) /\
    obstacles self' = Some (obsts ++ new) /\
    List.length new = n /\
    Forall (well_placed p) new /\
    path self' = path self /\
    vessel self' = vessel self /\
    config self' = config self /\
    is_Some (np_random self').
Proof.
  intros Hrand Hlen. revert self g obsts i.
  induction n as [|n IH]; intros self g obsts i Hp Hg Hobsts.
  - exists self, []. cbn. rewrite app_nil_r, Hg. repeat split; eauto.
  - cbn [seq for_each].
    destruct (generate_obstacle_run self p g obsts i Hrand Hlen Hp Hg Hobsts)
      as (obst & g' & Hrun & Hplaced).
    erewrite bind_inr by exact Hrun.
    destruct (IH (set_obstacles (Some (obsts ++ [obst])) (set_np_random (Some g') self))
                g' (obsts ++ [obst]) (S i) Hp eq_refl eq_refl)
      as (self' & new & Hloop & Hobs' & Hn & Hall & Hpath & Hves & Hcfg & Hgen).
    exists self', (obst :: new). split; [exact Hloop|].
    split; [rewrite Hobs', <- app_assoc; reflexivity|].
    split; [cbn; lia|]. split; [constructor; assumption|].
    repeat split; assumption.
Qed.

(** X18. A call to [reset] clears the episode before it generates the new
    one: whatever [generate] then does, the accumulated reward and the
    progress are 0, the configuration and the sizes are as before, and the
    random generator is seeded, with seed 5, only if there was none. *)
Theorem reset_clears_episode (self : @AUVEnv X) :
  let self' := (reset K self).1 in
  reward self' = 0 /\
  path_prog self' = 0 /\
  config self' = config self /\
  nstates self' = nstates self /\
  nsectors self' = nsectors self /\
  (forall g, np_random self = Some g -> np_random self' = Some g) /\
  (np_random self = None -> np_random self' = Some (lib.np_random X 5).1).
Proof.
  cbv zeta. unfold reset, bind, modify, get, ret.
  cbn [np_random set_path_prog set_reward set_obstacles set_path set_vessel].
  destruct (np_random self) as [g|] eqn:Hg.
  - rewrite generate_raises. cbn.
    repeat split; try reflexivity; intros; congruence.
  - unfold seed, bind, modify, ret. cbn [default].
    destruct (lib.np_random X 5) as [rng sd].
    rewrite generate_raises. cbn.
    repeat split; try reflexivity; intros; congruence.
Qed.

End EnvFacts.

(** ** How the methods of the environment compose *)

Section Composition.
Context (K : const.t) {X : lib.t}.

(** A method that leaves the object as it is and whose continuation never
    raises [e] raises [e] only if it does so itself. *)
Lemma bind_never {A B : Type} (e : PyError) (c : @M X A) (k : A -> @M X B)
    (self : @AUVEnv X) :
  readonly c ->
  (c self).2 <> inl e ->
  (forall a, (k a self).2 <> inl e) ->
  (bind c k self).2 <> inl e.
Proof.
  intros Hro Hc Hk. unfold bind. specialize (Hro self).
  destruct (c self) as [s [err|a]]; cbn [fst snd] in *.
  - intros E. apply Hc. inversion E. reflexivity.
  - subst s. apply Hk.
Qed.

Lemma config_get_never (key : string) (self : @AUVEnv X) (i : Z) :
  (config_get key self).2 <> inl (IndexError i).
Proof.
  unfold config_get, bind, get, ret, raise.
  destruct (config self !! key); cbn; discriminate.
Qed.

Lemma attr_of_never {A : Type} (field : @AUVEnv X -> option A) (attr : string)
    (self : @AUVEnv X) (i : Z) :
  (attr_of field attr self).2 <> inl (IndexError i).
Proof.
  unfold attr_of, bind, get, ret, raise.
  destruct (field self); cbn; discriminate.
Qed.

Lemma for_each_never {A S : Type} (e : PyError) (xs : list A)
    (body : S -> A -> @M X S) (self : @AUVEnv X) :
  (forall s x, readonly (body s x)) ->
  (forall s x, In x xs -> (body s x self).2 <> inl e) ->
  forall s, (for_each xs body s self).2 <> inl e.
Proof.
  intros Hro. induction xs as [|x xs IH]; intros Hbody s; cbn [for_each].
  - cbn. discriminate.
  - apply bind_never.
    + apply Hro.
    + apply Hbody. left. reflexivity.
    + intros a. apply IH. intros s' x' Hin. apply Hbody. right. exact Hin.
Qed.

(** X26. [step_reward] fits the vector that [observe] returns: given the
    observation returned by [observe] on the same environment, whatever its
    sizes and options, [step_reward] never raises IndexError. *)
Theorem step_reward_reads_within_observation (self self' : @AUVEnv X)
    (obs : list R) (delta_path_prog : R) (i : Z) :
  observe K self = (self', inr obs) ->
  (step_reward K obs delta_path_prog self).2 <> inl (IndexError i).
Proof.
  intros Hobs.
  destruct (observe_at_least_six K self self' obs Hobs) as [Hlen Hsix].
  assert (H0 : getitem obs 0 = inr (nth 0 obs 0)).
  { apply (getitem_nat obs 0). lia. }
  assert (H3 : getitem obs 3 = inr (nth 3 obs 0)).
  { apply (getitem_nat obs 3). lia. }
  assert (Hsec : forall sector, In sector (seq 0 (nsectors self)) ->
            getitem obs (Z.of_nat (nstates self + sector))
            = inr (nth (nstates self + sector) obs 0)).
  { intros sector Hin. apply in_seq in Hin. apply getitem_nat. lia. }
  unfold step_reward. mstep.
  apply bind_never.
  { destruct (bool_decide (reward self < -300)); cbn [negb andb];
      repeat readonly_step. }
  { destruct (bool_decide (reward self < -300)); cbn [negb andb].
    - cbn. discriminate.
    - apply bind_never; [repeat readonly_step|apply attr_of_never|].
      intros p. cbn. discriminate. }
  intros done.
  apply bind_never; [repeat readonly_step|apply attr_of_never|]. intros v.
  apply bind_never; [repeat readonly_step|apply attr_of_never|]. intros p.
  match goal with
  | |- context [if ?c then true else done] =>
      set (done' := if c then true else done)
  end.
  clearbody done'.
  apply bind_never.
  { destruct done'; cbn [negb]; repeat readonly_step. }
  { destruct done'; cbn [negb].
    - cbn. discriminate.
    - apply bind_never; [repeat readonly_step|apply config_get_never|].
      intros w. cbn. discriminate. }
  intros r0.
  apply bind_never.
  { repeat readonly_step. }
  { apply for_each_never.
    - intros s x. repeat readonly_step.
    - intros s sector Hin. rewrite bind_lift, (Hsec sector Hin).
      apply bind_never; [repeat readonly_step|apply config_get_never|].
      intros w. cbn. discriminate. }
  intros r1.
  destruct done'; cbn [negb]; [cbn; discriminate|].
  rewrite bind_lift, H0.
  apply bind_never; [repeat readonly_step|apply config_get_never|]. intros cruise_speed.
  rewrite bind_lift.
  destruct (py_div _ _) as [err|ratio] eqn:Hq.
  { unfold py_div in Hq. destruct (decide _); inversion Hq. cbn. discriminate. }
  rewrite bind_lift, H3.
  apply bind_never; [repeat readonly_step|apply config_get_never|]. intros w1.
  apply bind_never; [repeat readonly_step|apply config_get_never|]. intros w2.
  cbn. discriminate.
Qed.

Lemma bind_get {B : Type} (k : @AUVEnv X -> @M X B) (self : @AUVEnv X) :
  bind get k self = k self self.
Proof. reflexivity. Qed.

Lemma bind_config_get {B : Type} (key : string) (k : pynum -> @M X B)
    (self : @AUVEnv X) :
  bind (config_get key) k self
  = match config self !! key with
    | Some v => k v self
    | None => (self, inl (KeyError key))
    end.
Proof.
  unfold config_get, bind, get, ret, raise. destruct (config self !! key); reflexivity.
Qed.

Lemma bind_attr_of {A B : Type} (field : @AUVEnv X -> option A) (attr : string)
    (k : A -> @M X B) (self : @AUVEnv X) :
  bind (attr_of field attr) k self
  = match field self with
    | Some x => k x self
    | None => (self, inl (AttributeError "NoneType" attr))
    end.
Proof.
  unfold attr_of, bind, get, ret, raise. destruct (field self); reflexivity.
Qed.

(** The accumulated reward is not among the attributes that the loop body of
    [observe] and [observe] itself read. *)
Lemma for_each_ignores_reward {A S : Type} (xs : list A) (body : S -> A -> @M X S)
    (r : R) :
  (forall s x, readonly (body s x)) ->
  (forall s x self, (body s x (set_reward r self)).2 = (body s x self).2) ->
  forall s self,
    (for_each xs body s (set_reward r self)).2 = (for_each xs body s self).2.
Proof.
  intros Hro Hbody. induction xs as [|x xs IH]; intros s self; cbn [for_each].
  - reflexivity.
  - unfold bind.
    pose proof (Hro s x (set_reward r self)) as H1.
    pose proof (Hro s x self) as H2.
    pose proof (Hbody s x self) as H3.
    destruct (body s x (set_reward r self)) as [s1 r1].
    destruct (body s x self) as [s2 r2].
    cbn [fst snd] in *. subst s1 s2 r1.
    destruct r2 as [err|s']; [reflexivity|apply IH].
Qed.

Lemma observe_obstacle_ignores_reward (obst_range : R) (obs : list R)
    (obst : Obstacle.StaticObstacle) (r : R) (self : @AUVEnv X) :
  (observe_obstacle K obst_range obs obst (set_reward r self)).2
  = (observe_obstacle K obst_range obs obst self).2.
Proof.
  unfold observe_obstacle, attr_of. unfold bind, get, ret, raise, lift.
  cbn beta iota. cbn [vessel nstates nsectors set_reward].
  destruct (vessel self) as [v|]; [|reflexivity].
  repeat case_match; simplify_eq; reflexivity.
Qed.

Lemma observe_ignores_reward (r : R) (self : @AUVEnv X) :
  (observe K (set_reward r self)).2 = (observe K self).2.
Proof.
  unfold observe.
  rewrite !bind_config_get. cbn [config set_reward].
  destruct (config self !! "los_dist") as [ld|]; [|reflexivity].
  rewrite !bind_config_get. cbn [config set_reward].
  destruct (config self !! "obst_range") as [orange|]; [|reflexivity].
  rewrite !bind_get, !bind_attr_of. cbn [path set_reward].
  destruct (path self) as [p|]; [|reflexivity].
  rewrite !bind_attr_of. cbn [vessel set_reward].
  destruct (vessel self) as [v|]; [|reflexivity].
  cbn [path_prog nstates nsectors last_action obstacles set_reward].
  rewrite !bind_lift.
  destruct (setitem _ 0 _) as [err|o0]; [reflexivity|].
  rewrite !bind_lift.
  destruct (setitem _ 1 _) as [err|o1]; [reflexivity|].
  rewrite !bind_lift.
  destruct (setitem _ 2 _) as [err|o2]; [reflexivity|].
  rewrite !bind_lift.
  destruct (setitem _ 3 _) as [err|o3]; [reflexivity|].
  destruct (last_action self) as [a|]; [|reflexivity].
  rewrite !bind_lift.
  destruct (setitem _ 4 _) as [err|o4]; [reflexivity|].
  rewrite !bind_lift.
  destruct (setitem _ 5 _) as [err|o5]; [reflexivity|].
  destruct (obstacles self) as [obsts|]; [|reflexivity].
  apply for_each_ignores_reward.
  - intros s x. apply readonly_observe_obstacle.
  - intros s x self0. apply observe_obstacle_ignores_reward.
Qed.

(** X27. The observation that [step] returns is the observation of the
    environment as [step] leaves it: [observe] called right after a
    returning [step] gives the same vector, and changes nothing. *)
Theorem step_returns_current_observation (action : vec2) (self self' : @AUVEnv X)
    (obs : list R) (r : R) (done : bool) (info : gmap string pynum) :
  step K action self = (self', inr (obs, r, done, info)) ->
  observe K self' = (self', inr obs).
Proof.
  intros Hstep.
  destruct (vessel self) as [v|] eqn:Hv; cycle 1.
  { revert Hstep. unfold step, bind at 1, modify at 1.
    erewrite bind_inl; [discriminate|].
    apply attr_of_None. exact Hv. }
  destruct (path self) as [p|] eqn:Hp; cycle 1.
  { revert Hstep. unfold step, bind at 1, modify at 1.
    unfold bind at 1, attr_of at 1, bind at 1, get at 1.
    cbn [vessel set_last_action]. rewrite Hv. unfold ret at 1.
    unfold bind at 1, modify at 1.
    erewrite bind_inl; [discriminate|].
    apply attr_of_None. exact Hp. }
  rewrite (step_unfold K action self v p Hv Hp) in Hstep. cbv zeta in Hstep.
  set (self1 := set_path_prog _ _) in Hstep.
  destruct (observe K self1) as [s1 [err|obs1]] eqn:Hobs; cbn [snd] in Hstep;
    [discriminate|].
  destruct (step_reward K obs1 _ self1) as [s2 [err|[d1 r1]]]; cbn [snd] in Hstep;
    [discriminate|].
  set (rho := reward self1 + r1) in Hstep. clearbody rho.
  assert (Hs : self' = set_reward rho self1) by congruence.
  assert (Ho : obs = obs1) by congruence.
  subst self' obs.
  pose proof (readonly_observe K (set_reward rho self1)) as Hro.
  pose proof (observe_ignores_reward rho self1) as Hig.
  rewrite Hobs in Hig. cbn [snd] in Hig.
  destruct (observe K (set_reward rho self1)) as [s3 r3].
  cbn [fst snd] in *. subst. reflexivity.
Qed.

End Composition.

(** ** The geometry of the renderer *)

Section RenderingFacts.
Import rendering.

Lemma norm2_scaled_rotation (c s k dx dy : R) :
  s * s + c * c = 1 ->
  norm2 (c * dx * k - s * dy * k, s * dx * k + c * dy * k) = Rabs k * norm2 (dx, dy).
Proof.
  intros Hcs. unfold norm2. cbn [fst snd].
  replace ((c * dx * k - s * dy * k) * (c * dx * k - s * dy * k)
           + (s * dx * k + c * dy * k) * (s * dx * k + c * dy * k))
    with ((s * s + c * c) * (Rsqr k * (dx * dx + dy * dy))) by (unfold Rsqr; ring).
  rewrite Hcs, Rmult_1_l.
  rewrite sqrt_mult by (try apply Rle_0_sqr; nra).
  rewrite sqrt_Rsqr_abs. reflexivity.
Qed.

(** X19. [transform_vertices] is a similarity: it returns one vertex per
    point, and the distance between two transformed vertices is the distance
    between the points times the absolute value of the scale. *)
Theorem transform_vertices_similarity (points : list vec2) (translation : vec2)
    (rotation : R) (scale : option R) (i j : nat) :
  (i < List.length points)%nat ->
  (j < List.length points)%nat ->
  let res := transform_vertices points translation rotation scale in
  List.length res = List.length points /\
  norm2 (vsub2 (nth i res (0, 0)) (nth j res (0, 0)))
  = Rabs (default 1 scale) * norm2 (vsub2 (nth i points (0, 0)) (nth j points (0, 0))).
Proof.
  intros Hi Hj. cbv zeta. unfold transform_vertices. cbv zeta.
  split; [apply length_fmap|].
  rewrite (nth_fmap_lt _ points i (0, 0) (0, 0)) by exact Hi.
  rewrite (nth_fmap_lt _ points j (0, 0) (0, 0)) by exact Hj.
  destruct (nth i points (0, 0)) as [px py]. destruct (nth j points (0, 0)) as [qx qy].
  unfold vsub2. cbn [fst snd].
  pose proof (sin2_cos2 rotation) as Hcs. unfold Rsqr in Hcs.
  rewrite <- (norm2_scaled_rotation (cos rotation) (sin rotation) (default 1 scale)
                (px - qx) (py - qy) Hcs).
  f_equal. f_equal; ring.
Qed.

(** X20. [make_circle] returns [res] vertices, every one at distance
    [|radius|] from [origin]; the geometry is a filled polygon unless
    [filled] is false, when it is a closed polyline. *)
Theorem make_circle_on_circle (origin : option vec2) (radius : option R)
    (res : option nat) (filled : option bool) :
  let geom := make_circle origin radius res filled in
  List.length (vertices geom) = default 30%nat res /\
  Forall (fun p => norm2 (vsub2 p (default (0, 0) origin)) = Rabs (default 10 radius))
         (vertices geom) /\
  (default true filled = true -> geom = FilledPolygon (vertices geom) black) /\
  (default true filled = false -> geom = PolyLine (vertices geom) true black 1).
Proof.
  cbv zeta. unfold make_circle. cbv zeta.
  set (pts := _ <$> seq 0 (default 30%nat res)).
  assert (Hv : vertices (if default true filled then FilledPolygon pts black
                         else PolyLine pts true black 1) = pts).
  { destruct (default true filled); reflexivity. }
  rewrite Hv. split; [subst pts; rewrite length_fmap, length_seq; reflexivity|].
  split.
  - subst pts. apply Forall_fmap. apply Forall_forall. intros i _. cbn.
    set (ang := 2 * PI * INR i / INR (default 30%nat res)).
    unfold vsub2. cbn [fst snd].
    replace (cos ang * default 10 radius + (default (0, 0) origin).1
             - (default (0, 0) origin).1)
      with (cos ang * 1 * default 10 radius - sin ang * 0 * default 10 radius) by ring.
    replace (sin ang * default 10 radius + (default (0, 0) origin).2
             - (default (0, 0) origin).2)
      with (sin ang * 1 * default 10 radius + cos ang * 0 * default 10 radius) by ring.
    pose proof (sin2_cos2 ang) as Hcs. unfold Rsqr in Hcs.
    rewrite (norm2_scaled_rotation (cos ang) (sin ang) (default 10 radius) 1 0 Hcs).
    unfold norm2. cbn [fst snd]. replace (1 * 1 + 0 * 0) with 1 by ring.
    rewrite sqrt_1. ring.
  - split; intros Hf; rewrite Hf; reflexivity.
Qed.

(** X21. [set_bounds] fails its assertion unless [left < right] and
    [bottom < top]; otherwise the transform it sets has no rotation and takes
    the lower left corner of the bounds to (0, 0) and the upper right corner
    to [(width, height)]. *)
Theorem set_bounds_maps_corners (width height left right bottom top : R) :
  (~ (left < right /\ bottom < top) ->
   set_bounds width height left right bottom top = None) /\
  (left < right -> bottom < top ->
   exists t,
     set_bounds width height left right bottom top = Some t /\
     rotation t = 0 /\
     apply t (left, bottom) = (0, 0) /\
     apply t (right, top) = (width, height)).
Proof.
  split.
  - intros Hn. unfold set_bounds. destruct (decide _) as [H|_]; [tauto|reflexivity].
  - intros Hx Hy. unfold set_bounds. destruct (decide _) as [_|H]; [|tauto].
    eexists. split; [reflexivity|].
    assert (H00 : 0.0 = 0) by lra.
    split; [cbn; exact H00|].
    unfold apply, Transform__init__. cbn [default scale rotation translation fst snd].
    rewrite H00, cos_0, sin_0.
    cbv [Datatypes.id fst snd].
    split; f_equal; field; lra.
Qed.

(** X22. [draw_circle]: a filled circle drawn with a [linewidth] raises
    AttributeError and draws nothing, a filled polygon having no
    [set_linewidth]; without a [linewidth], a filled circle with its outline
    adds two geometries on the same vertices, the fill in the colour asked for
    and a black closed polyline of stroke 1, and returns the fill. *)
Theorem draw_circle_fill_and_outline (origin : option vec2) (radius : option R)
    (res : option nat) (attrs : Attrs) (onetime_geoms : list Geom) :
  (forall w outline,
     linewidth attrs = Some w ->
     draw_circle origin radius res None outline attrs onetime_geoms
     = (onetime_geoms, inl (AttributeError "FilledPolygon" "set_linewidth"))) /\
  (linewidth attrs = None ->
   exists fill outl,
     draw_circle origin radius res None None attrs onetime_geoms
     = (onetime_geoms ++ [fill; outl], inr fill) /\
     vertices fill = vertices (make_circle origin radius res None) /\
     outl = PolyLine (vertices fill) true (0, 0, 0, 1) 1 /\
     (forall r g b, color attrs = Some (r, g, b) ->
                    fill = FilledPolygon (vertices fill) (r, g, b, 1)) /\
     (color attrs = None -> fill = FilledPolygon (vertices fill) black)).
Proof.
  split.
  - intros w outline Hw. unfold draw_circle, _add_attrs, make_circle. cbn [default].
    cbv [Datatypes.id]. rewrite Hw. destruct (color attrs) as [[[r g] b]|]; reflexivity.
  - intros Hw. unfold draw_circle, _add_attrs, make_circle. cbn [default andb].
    cbv [Datatypes.id].
    rewrite Hw. cbn [color linewidth set_color set_linewidth].
    destruct (color attrs) as [[[r g] b]|] eqn:Hc; cbn [set_color set_linewidth];
      rewrite <- app_assoc; cbn [app]; eexists _, _;
      (split; [reflexivity|]); (split; [reflexivity|]); (split; [reflexivity|]);
      split; intros; try discriminate;
      try (match goal with H : Some _ = Some _ |- _ => inversion H; subst end);
      reflexivity.
Qed.

(** X23. [draw_arrow] draws the shaft from [base] to the head, with stroke 2,
    and a triangle whose apex lies on the line of the shaft, 0.7 beyond the
    head; called with a [linewidth] it raises TypeError and draws nothing. *)
Theorem draw_arrow_apex_ahead (base : vec2) (angle length : R) (attrs : Attrs)
    (onetime_geoms : list Geom) :
  let head := (base.1 + length * cos angle, base.2 + length * sin angle) in
  (is_Some (linewidth attrs) ->
   exists msg, draw_arrow base angle length attrs onetime_geoms
               = (onetime_geoms, inl (TypeError msg))) /\
  (linewidth attrs = None ->
   exists shaft tri,
     draw_arrow base angle length attrs onetime_geoms
     = (onetime_geoms ++ [shaft; tri], inr tt) /\
     (exists c, shaft = PolyLine [base; head] false c 2) /\
     List.length (vertices tri) = 3%nat /\
     nth 2 (vertices tri) (0, 0)
     = (head.1 + 0.7 * cos angle, head.2 + 0.7 * sin angle)).
Proof.
  cbv zeta. split.
  - intros [w Hw]. unfold draw_arrow. rewrite Hw. eexists. reflexivity.
  - intros Hw. unfold draw_arrow. rewrite Hw.
    unfold draw_polyline, draw_polygon, _add_attrs, make_polyline, make_polygon.
    cbn [color linewidth set_linewidth default]. cbv [Datatypes.id].
    assert (Hcos : cos (angle - PI / 2) = sin angle).
    { rewrite cos_minus, cos_PI2, sin_PI2. ring. }
    assert (Hsin : sin (angle - PI / 2) = - cos angle).
    { rewrite sin_minus, cos_PI2, sin_PI2. ring. }
    rewrite Hw.
    destruct (color attrs) as [[[r g] b]|]; cbn [set_color set_linewidth];
      rewrite <- app_assoc; cbn [app]; eexists _, _;
      (split; [reflexivity|]); (split; [eexists; reflexivity|]);
      (split; [reflexivity|]);
      cbn [vertices transform_vertices TRIANGLE_POLY fmap list_fmap nth default fst snd];
      rewrite Hcos, Hsin; cbv [Datatypes.id]; apply (f_equal2 pair); lra.
Qed.

(** X24. The camera of [render_env] follows the vessel: the transform it sets
    takes the vessel's position to the centre of the window, and from the
    second frame on its rotation moves one hundredth of the way to the ship's
    angle, so that the angle left to turn shrinks by the factor 0.99. *)
Theorem camera_centres_vessel (rot_angle : option R) (position : vec2) (heading : R) :
  apply (camera rot_angle position heading) position = (WINDOW_W / 2, WINDOW_H / 2) /\
  next_rot_angle None heading = - heading + PI / 2 /\
  (forall old,
     (- heading + PI / 2) - next_rot_angle (Some old) heading
     = 0.99 * ((- heading + PI / 2) - old)).
Proof.
  split; [|split].
  - unfold apply, camera. cbn [scale rotation translation fst snd].
    destruct position as [x y]. cbn [fst snd]. f_equal; ring.
  - reflexivity.
  - intros old. unfold next_rot_angle. lra.
Qed.

(** X25. [draw_shape] draws the polygon of the transformed vertices and then
    its outline, the same vertices with the first one repeated at the end, in
    black with stroke 2; with no vertex it raises IndexError after the
    polygon has been drawn. *)
Theorem draw_shape_closes_outline (vs : list vec2) (position : vec2)
    (angle : R) (rgb : R * R * R) (onetime_geoms : list Geom) :
  let poly_path := transform_vertices vs position angle None in
  (vs = [] ->
   exists poly,
     draw_shape vs position angle rgb onetime_geoms
     = (onetime_geoms ++ [poly], inl (IndexError 0)) /\
     vertices poly = []) /\
  (forall first rest,
     poly_path = first :: rest ->
     exists poly outl,
       draw_shape vs position angle rgb onetime_geoms
       = (onetime_geoms ++ [poly; outl], inr tt) /\
       vertices poly = poly_path /\
       outl = PolyLine (poly_path ++ [first]) false (0, 0, 0, 1) 2).
Proof.
  cbv zeta. destruct rgb as [[r g] b]. split.
  - intros Hvs. subst vs. eexists. split; reflexivity.
  - intros first rest Hpath. unfold draw_shape. rewrite Hpath.
    unfold draw_polygon, draw_polyline, _add_attrs, make_polygon, make_polyline.
    cbn [default color linewidth set_color set_linewidth]. cbv [Datatypes.id].
    cbn [set_color set_linewidth].
    rewrite <- app_assoc. cbn [app].
    eexists _, _. split; [reflexivity|]. split; reflexivity.
Qed.

(** X29. Only polylines have a stroke to set: [draw_line] and [draw_polygon]
    called with a [linewidth] raise AttributeError and draw nothing, while
    [draw_polyline] draws the open polyline with that stroke. *)
Theorem linewidth_only_for_polylines (attrs : Attrs) (w : R)
    (onetime_geoms : list Geom) :
  linewidth attrs = Some w ->
  (forall start end_,
     draw_line start end_ attrs onetime_geoms
     = (onetime_geoms, inl (AttributeError "Line" "set_linewidth"))) /\
  (forall v,
     draw_polygon v None attrs onetime_geoms
     = (onetime_geoms, inl (AttributeError "FilledPolygon" "set_linewidth"))) /\
  (forall v, exists c,
     draw_polyline v attrs onetime_geoms
     = (onetime_geoms ++ [PolyLine v false c w], inr (PolyLine v false c w))).
Proof.
  intros Hw. repeat split.
  - intros start end_. unfold draw_line, _add_attrs. rewrite Hw.
    destruct (color attrs) as [[[r g] b]|]; reflexivity.
  - intros v. unfold draw_polygon, _add_attrs, make_polygon. rewrite Hw.
    destruct (color attrs) as [[[r g] b]|]; reflexivity.
  - intros v. unfold draw_polyline, _add_attrs, make_polyline. rewrite Hw.
    destruct (color attrs) as [[[r g] b]|]; eexists; reflexivity.
Qed.

(** X30. [_render_vessel] never raises and adds five geometries: the track
    with one vertex per recorded state, the hull with its five vertices and
    its outline, and the shaft and the head of the rudder arrow.  The bow of
    the hull lies three widths ahead of the vessel's position along its
    heading, and the arrow starts at the position. *)
Theorem render_vessel_draws_five (vessel : AUV2D) (onetime_geoms : list Geom) :
  exists track hull outl shaft tri,
    _render_vessel vessel onetime_geoms
    = (onetime_geoms ++ [track; hull; outl; shaft; tri], inr tt) /\
    vertices track = path_taken vessel /\
    List.length (vertices track) = List.length (prev_states vessel) /\
    List.length (vertices hull) = 5%nat /\
    nth 3 (vertices hull) (0, 0)
    = ((position vessel).1 + 3 * width vessel * cos (heading vessel),
       (position vessel).2 + 3 * width vessel * sin (heading vessel)) /\
    List.length (vertices outl) = 6%nat /\
    nth 0 (vertices shaft) (0, 0) = position vessel /\
    List.length (vertices tri) = 3%nat.
Proof.
  cbv beta iota zeta delta
    [_render_vessel draw_polyline draw_shape draw_polygon draw_arrow make_polyline
     make_polygon _add_attrs set_linewidth set_color no_attrs vessel_shape
     transform_vertices TRIANGLE_POLY color linewidth default from_option
     fmap list_fmap].
  do 5 eexists. split.
  { rewrite <- !app_assoc. cbn [app]. reflexivity. }
  cbn [vertices List.length nth].
  repeat split.
  - unfold path_taken. apply length_fmap.
  - cbv [Datatypes.id fst snd]. apply (f_equal2 pair); lra.
Qed.

End RenderingFacts.

(** ** The further properties on the scenario *)

Module ScenarioWitnesses.
Import Scenario ScenarioFacts.

(** X1, witness: the constants of the scenario and the input 3. *)
Lemma actuator_commands_within_limits_witness :
  const.THRUST_MIN_AUV K0 <= const.THRUST_MAX_AUV K0 /\
  0 <= const.RUDDER_MAX_AUV K0 /\
  _surge K0 3 = const.THRUST_MAX_AUV K0 /\
  _steer K0 3 = const.RUDDER_MAX_AUV K0.
Proof.
  assert (H1 : const.THRUST_MIN_AUV K0 <= const.THRUST_MAX_AUV K0) by (cbn; lra).
  assert (H2 : 0 <= const.RUDDER_MAX_AUV K0) by (cbn; lra).
  destruct (actuator_commands_within_limits K0 3 H1 H2) as (_ & _ & _ & Hs & _ & Hr).
  split; [exact H1|]. split; [exact H2|].
  split; [apply Hs; lra | apply Hr; lra].
Defined.

(** X4, witness: the vessel at rest under full thrust. *)
Lemma AUV2D_step_from_rest_keeps_position_witness :
  (_state vessel0).2 = (0, 0, 0) /\
  position (AUV2D_step K0 vessel0 (1, 0)) = position vessel0.
Proof.
  split; [reflexivity|].
  apply (AUV2D_step_from_rest_keeps_position K0 vessel0 (1, 0)). reflexivity.
Defined.

(** X7, witness: three waypoints at the corners of a right triangle. *)
Lemma arc_len_at_least_chord_witness :
  let coords : list vec2 := [(0, 0); (3, 0); (3, 4)] in
  (0 <= 2 < List.length coords)%nat /\
  norm2 (vsub2 (nth 2 coords (0, 0)) (nth 0 coords (0, 0)))
  <= nth 2 (Path.arc_len coords) 0 - nth 0 (Path.arc_len coords) 0.
Proof.
  intros coords.
  assert (H : (0 <= 2 < List.length coords)%nat) by (cbn; lia).
  split; [exact H|].
  exact (arc_len_at_least_chord coords 0 2 H).
Defined.


(** X14, witness: one step in the scenario. *)
Lemma step_advances_before_observing_witness :
  let self := env config0 [ahead] 0 in
  vessel self = Some vessel0 /\
  path self = Some straight /\
  last_action (step K0 (1, 0.5) self).1 = Some (1, 0.5) /\
  vessel (step K0 (1, 0.5) self).1 = Some (AUV2D_step K0 vessel0 (1, 0.5)).
Proof.
  cbv zeta.
  destruct (step_advances_before_observing K0 (1, 0.5) (env config0 [ahead] 0)
              vessel0 straight eq_refl eq_refl) as (Ha & Hv & _).
  split; [reflexivity|]. split; [reflexivity|]. split; assumption.
Defined.

(** X16, witness: the scenario, whose penalty weights are all -1. *)
Lemma step_reward_at_most_progress_witness :
  let self := env config0 [] 0 in
  to_float (PyFloat (-1)) <= 0 /\
  exists done r,
    step_reward K0 (replicate 14 0) 2 self = (self, inr (done, r)) /\
    (done = false -> r <= 2 * to_float (PyFloat 1)).
Proof.
  cbv zeta.
  assert (Hw : to_float (PyFloat (-1)) <= 0) by (cbn; lra).
  assert (H3 : (3 < nstates (env config0 [] 0))%nat) by (cbn; lia).
  assert (Hmax : const.MAX_SPEED K0 <> 0) by (cbn; lra).
  destruct (step_reward_at_most_progress K0 (env config0 [] 0) (replicate 14 0) 2
              straight vessel0 (PyFloat 1) (PyFloat (-1)) (PyFloat 1.5) (PyFloat (-1))
              (PyFloat (-1)) eq_refl eq_refl H3 eq_refl Hmax eq_refl eq_refl eq_refl
              eq_refl eq_refl Hw Hw Hw) as (done & r & Hrun & _ & Hbound).
  split; [exact Hw|]. exists done, r. split; assumption.
Defined.

(** X17, witness: three obstacles generated in the scenario, whose generator
    always draws 0.5. *)
Lemma generate_obstacles_placed_witness :
  (forall g, 0 <= (lib.rand X0 g).1 < 1) /\
  0 <= Path.length straight /\
  exists self' new,
    for_each (seq 0 3) generate_obstacle tt (env config0 [ahead] 0) = (self', inr tt) /\
    obstacles self' = Some ([ahead] ++ new) /\
    List.length new = 3%nat /\
    Forall (well_placed straight) new.
Proof.
  assert (Hrand : forall g, 0 <= (lib.rand X0 g).1 < 1) by (intros g; cbn; lra).
  assert (Hlen : 0 <= Path.length straight) by (cbn; lra).
  destruct (generate_obstacles_placed 3 (env config0 [ahead] 0) straight 0%nat [ahead] 0
              Hrand Hlen eq_refl eq_refl eq_refl)
    as (self' & new & Hrun & Hobs & Hn & Hall & _).
  split; [exact Hrand|]. split; [exact Hlen|].
  exists self', new. repeat split; assumption.
Defined.

(** X19, witness: the hull of a vessel of width 4, turned and scaled by 2. *)
Lemma transform_vertices_similarity_witness :
  let points := rendering.vessel_shape 4 in
  (0 < List.length points)%nat /\
  (3 < List.length points)%nat /\
  let res := rendering.transform_vertices points (10, 20) (PI / 3) (Some 2) in
  List.length res = 5%nat /\
  norm2 (vsub2 (nth 0 res (0, 0)) (nth 3 res (0, 0)))
  = Rabs 2 * norm2 (vsub2 (nth 0 points (0, 0)) (nth 3 points (0, 0))).
Proof.
  cbv zeta.
  assert (H0 : (0 < List.length (rendering.vessel_shape 4))%nat) by (cbn; lia).
  assert (H3 : (3 < List.length (rendering.vessel_shape 4))%nat) by (cbn; lia).
  split; [exact H0|]. split; [exact H3|].
  exact (transform_vertices_similarity (rendering.vessel_shape 4) (10, 20) (PI / 3)
           (Some 2) 0 3 H0 H3).
Defined.

(** X26, witness: the observation of the scenario without obstacles. *)
Lemma step_reward_reads_within_observation_witness :
  observe K0 (env config0 [] 0) = (env config0 [] 0, inr (replicate 14 0)) /\
  (step_reward K0 (replicate 14 0) 1 (env config0 [] 0)).2 <> inl (IndexError 0).
Proof.
  assert (H : observe K0 (env config0 [] 0) = (env config0 [] 0, inr (replicate 14 0))).
  { rewrite observe_scenario by reflexivity. reflexivity. }
  split; [exact H|].
  exact (step_reward_reads_within_observation K0 _ _ _ 1 0 H).
Defined.

(** X27, witness: the zero action in the scenario without obstacles. *)
Lemma step_returns_current_observation_witness :
  exists self' obs r done info,
    step K0 (0, 0) (env config0 [] 0) = (self', inr (obs, r, done, info)) /\
    observe K0 self' = (self', inr obs).
Proof.
  destruct (step_at_rest (env config0 [] 0) vessel0 eq_refl eq_refl eq_refl eq_refl
              eq_refl eq_refl eq_refl eq_refl) as (r & Hstep & _).
  eexists _, _, _, _, _. split; [exact Hstep|].
  exact (step_returns_current_observation K0 _ _ _ _ _ _ _ Hstep).
Defined.

(** X28, witness: the first step of the vessel of the scenario. *)
Lemma heading_change_last_two_witness :
  last (prev_states vessel0) = Some ((0, 0, 0), (0, 0, 0)) /\
  heading_change (AUV2D_step K0 vessel0 (1, 0.5))
  = geom.princip (heading (AUV2D_step K0 vessel0 (1, 0.5)) - 0).
Proof.
  split; [reflexivity|].
  exact (proj1 (heading_change_last_two K0) vessel0 (1, 0.5) ((0, 0, 0), (0, 0, 0))
           eq_refl).
Defined.

(** X29, witness: a stroke of 2 and no colour, on an empty list. *)
Lemma linewidth_only_for_polylines_witness :
  let attrs := {| rendering.color := None; rendering.linewidth := Some 2 |} in
  rendering.linewidth attrs = Some 2 /\
  forall start end_,
    rendering.draw_line start end_ attrs []
    = ([], inl (AttributeError "Line" "set_linewidth")).
Proof.
  intros attrs. split; [reflexivity|].
  exact (proj1 (linewidth_only_for_polylines attrs 2 [] eq_refl)).
Defined.

End ScenarioWitnesses.
